(** * repatcher_osc: the rePatcher frame decoder and its scaler

    A shallow embedding of [repatcher_osc.py]: the [Scaler] class, the
    [RepatcherReader] methods [_read_knobs], [_read_patch_bay] and [read],
    and the two entry points of the sender they call; module [Osc] holds
    the [OscSender] class that receives those calls.

    Conventions of the embedding.
    - Python [int]s are [Z]; [<<], [|], [&] and [==] on them are
      [Z.shiftl], [Z.lor], [Z.land] and [Z.eqb].
    - Python [float]s are IEEE binary64.  The class [Scaler] on arbitrary
      floats is [Binary64.Scaler_init] and [Binary64.Scaler_call], over
      Rocq's primitive floats; a float division by zero raises
      [ZeroDivisionError].  The decoding loops only ever scale the word of
      two bytes with the reader's scaler, and there the computation is
      exact ([binary64_knob_val]): for them the scaler is [Scaler_call]
      in exact rationals [Q].  [int(x)] truncates towards zero.
    - A [bytearray] is a [list Z]; indexing follows Python (negative
      indices count from the end, out of range raises [IndexError]).
    - The sender and the serial port are the mutable world the methods
      act on: the sender is the log of the calls it received, the serial
      port is the sequence of bytes still to be delivered together with
      the number of queued bytes each [flushInput] will find and drop.
    - A method is a computation in the monad [M]: it takes the world and
      returns an outcome (a value, a raised exception, or a read that
      blocks for ever) and the world it leaves. *)

From Stdlib Require Import ZArith QArith List Bool Lia Lqa Floats.
From Stdlib Require String DecimalString DecimalZ.
Import ListNotations.

Local Open Scope Z_scope.

(* ------------------------------------------------------------------ *)
(** ** Exceptions and outcomes *)

Inductive exn : Type :=
| IndexError
| ZeroDivisionError.

Inductive outcome (A : Type) : Type :=
| Ok (a : A)
| Raise (e : exn)
| Blocked.

Arguments Ok {A} a.
Arguments Raise {A} e.
Arguments Blocked {A}.

(* ------------------------------------------------------------------ *)
(** ** Python primitives *)

Module Py.

(** [int(x)] on a float: truncation towards zero. *)
Definition int_of_float (x : Q) : Z := Z.quot (Qnum x) (Zpos (Qden x)).

(** [x / y] on floats. *)
Definition truediv (x y : Q) : outcome Q :=
  if Qeq_bool y 0 then Raise ZeroDivisionError else Ok (x / y)%Q.

(** [range(start, stop, step)] for a positive [step]. *)
Definition range3 (start stop step : Z) : list Z :=
  map (fun k => start + step * Z.of_nat k)
      (seq 0 (Z.to_nat ((stop - start + step - 1) / step))).

(** [range(start, stop)]. *)
Definition range (start stop : Z) : list Z := range3 start stop 1.

(** [buffer[i]]. *)
Definition getitem (buffer : list Z) (i : Z) : outcome Z :=
  let n := Z.of_nat (length buffer) in
  let j := if i <? 0 then i + n else i in
  if (j <? 0) || (n <=? j) then Raise IndexError
  else match nth_error buffer (Z.to_nat j) with
       | Some b => Ok b
       | None => Raise IndexError
       end.

End Py.

(* ------------------------------------------------------------------ *)
(** ** class Scaler *)

Record Scaler : Type := mkScaler {
  srcBeg : Q;
  dstBeg : Q;
  srcRng : Q;
  dstRng : Q
}.

(** [Scaler.__init__(self, src, dst)]: four attribute assignments, no
    check of any kind.  This is the scaler of the decoding loops, in exact
    rationals; the class on arbitrary floats is [Binary64.Scaler_init]. *)
Definition Scaler_init (src dst : Q * Q) : outcome Scaler :=
  Ok {| srcBeg := fst src;
        dstBeg := fst dst;
        srcRng := snd src - fst src;
        dstRng := snd dst - fst dst |}%Q.

(** [Scaler.__call__(self, val)], in exact rationals: what binary64 gives
    for the reader's scaler on the word of two bytes
    ([binary64_knob_val]).  On arbitrary floats the call is
    [Binary64.Scaler_call]. *)
Definition Scaler_call (self : Scaler) (val : Q) : outcome Q :=
  match Py.truediv (val - srcBeg self) (srcRng self) with
  | Ok q => Ok (q * dstRng self + dstBeg self)%Q
  | Raise e => Raise e
  | Blocked => Blocked
  end.

(* ------------------------------------------------------------------ *)
(** ** The world: the sender and the serial port *)

(** The two methods of the sender that the reader calls. *)
Inductive event : Type :=
| send_knob (knob_num : Z) (knob_val : Q)
| send_patch_bay (output_num : Z) (values : list Z).

Record world : Type := mkWorld {
  ser_in : list Z;        (* bytes the port has still to deliver, in order *)
  ser_flush : list nat;   (* queued bytes each coming flushInput drops *)
  sent : list event       (* calls the sender has received, oldest first *)
}.

Definition M (A : Type) : Type := world -> outcome A * world.

Definition ret {A} (a : A) : M A := fun w => (Ok a, w).

Definition bind {A B} (c : M A) (k : A -> M B) : M B :=
  fun w =>
    match c w with
    | (Ok a, w') => k a w'
    | (Raise e, w') => (Raise e, w')
    | (Blocked, w') => (Blocked, w')
    end.

Definition lift {A} (o : outcome A) : M A := fun w => (o, w).

Declare Scope py_scope.
Delimit Scope py_scope with py.
Notation "x <- c ;; k" := (bind c (fun x => k))
  (at level 61, c at next level, right associativity) : py_scope.
Notation "c ;; k" := (bind c (fun _ => k))
  (at level 61, right associativity) : py_scope.
Local Open Scope py_scope.

(** [for x in xs: body]. *)
Fixpoint for_each {A} (xs : list A) (body : A -> M unit) : M unit :=
  match xs with
  | [] => ret tt
  | x :: xs' => body x ;; for_each xs' body
  end.

(** [[f(x) for x in xs]]. *)
Fixpoint comprehension {A B} (f : A -> M B) (xs : list A) : M (list B) :=
  match xs with
  | [] => ret []
  | x :: xs' => y <- f x ;; ys <- comprehension f xs' ;; ret (y :: ys)
  end.

(** [self.sender.send_knob(knob_num, knob_val)] and
    [self.sender.send_patch_bay(out_pin, values)]. *)
Definition sender_call (e : event) : M unit :=
  fun w => (Ok tt, {| ser_in := ser_in w;
                      ser_flush := ser_flush w;
                      sent := sent w ++ [e] |}).

(** [self.ser.read(n)] on a port opened without a timeout: returns exactly
    [n] bytes, and blocks for ever when fewer are to come. *)
Definition ser_read (n : nat) : M (list Z) :=
  fun w =>
    if (n <=? length (ser_in w))%nat
    then (Ok (firstn n (ser_in w)),
          {| ser_in := skipn n (ser_in w);
             ser_flush := ser_flush w;
             sent := sent w |})
    else (Blocked, w).

(** [self.ser.flushInput()]: drops the bytes queued at that moment. *)
Definition ser_flushInput : M unit :=
  fun w =>
    match ser_flush w with
    | [] => (Ok tt, w)
    | k :: ks => (Ok tt, {| ser_in := skipn k (ser_in w);
                            ser_flush := ks;
                            sent := sent w |})
    end.

(** [==] on [bytes]. *)
Fixpoint bytes_eqb (a b : list Z) : bool :=
  match a, b with
  | [], [] => true
  | x :: a', y :: b' => (x =? y) && bytes_eqb a' b'
  | _, _ => false
  end.

(* ------------------------------------------------------------------ *)
(** ** class RepatcherReader *)

Definition MESSAGE_BUFFER_START : list Z := [0xc0].
Definition BUFFER_LEN : nat := 18.

Record RepatcherReader : Type := mkReader {
  scaler : Scaler
}.

(** [RepatcherReader.__init__]: the part that builds the scaler (the
    sender and the port are the world). *)
Definition RepatcherReader_init : outcome RepatcherReader :=
  match Scaler_init (0, 1024)%Q (0, 1)%Q with
  | Ok s => Ok {| scaler := s |}
  | Raise e => Raise e
  | Blocked => Blocked
  end.

Definition _read_patch_bay (self : RepatcherReader) (buffer : list Z) : M unit :=
  for_each (Py.range 12 18) (fun i =>
    (* bays are in reverse order *)
    let out_pin := 5 - (i - 12) in
    (* bitflags, one per connection point *)
    values <- comprehension
                (fun j => b <- lift (Py.getitem buffer i) ;;
                          ret (if Z.land b j =? j then 1 else 0))
                [32; 16; 8; 4; 2; 1] ;;
    sender_call (send_patch_bay out_pin values)).

Definition _read_knobs (self : RepatcherReader) (buffer : list Z) : M unit :=
  for_each (Py.range3 0 12 2) (fun i =>
    (* knobs are in reverse order *)
    let knob_num := Py.int_of_float (5 - inject_Z i / 2)%Q in
    (* we are really reading words *)
    hi <- lift (Py.getitem buffer (i + 1)) ;;
    lo <- lift (Py.getitem buffer i) ;;
    let raw_val := Z.lor (Z.shiftl hi 7) lo in
    (* scale 0-1024 values to 0.0000-0.999 values *)
    knob_val <- lift (Scaler_call (scaler self) (inject_Z raw_val)) ;;
    sender_call (send_knob knob_num knob_val)).

(** One pass through the body of the [while True] loop of [read]. *)
Definition read_body (self : RepatcherReader) : M unit :=
  byte <- ser_read 1 ;;
  if bytes_eqb byte MESSAGE_BUFFER_START then
    buffer <- ser_read BUFFER_LEN ;;
    ser_flushInput ;;
    _read_knobs self buffer ;;
    _read_patch_bay self buffer
  else ret tt.

(** [read]: the first [n] passes of the loop, which has no exit of its
    own; it stops early only on an exception or a read that blocks. *)
Fixpoint read (self : RepatcherReader) (n : nat) : M unit :=
  match n with
  | O => ret tt
  | S n' => read_body self ;; read self n'
  end.

(* ------------------------------------------------------------------ *)
(** ** Vocabulary of the statements *)

(** The world after the sender has received the calls [evs]. *)
Definition log (w : world) (evs : list event) : world :=
  {| ser_in := ser_in w; ser_flush := ser_flush w; sent := sent w ++ evs |}.

(** The flags of one patch-bay row byte, as the comprehension builds them. *)
Definition row_flags (b : Z) : list Z :=
  map (fun mask => if Z.land b mask =? mask then 1 else 0) [32; 16; 8; 4; 2; 1].

(** The raw word of the byte pair at offset [i], and the calls the two
    loops make for offset [i] of a buffer of 18 bytes. *)
Definition knob_word (buffer : list Z) (i : Z) : Z :=
  Z.lor (Z.shiftl (nth (Z.to_nat (i + 1)) buffer 0) 7) (nth (Z.to_nat i) buffer 0).

Definition knob_event (buffer : list Z) (i : Z) : event :=
  send_knob (5 - i / 2)
            ((inject_Z (knob_word buffer i) - 0) / (1024 - 0) * (1 - 0) + 0)%Q.

Definition bay_event (buffer : list Z) (i : Z) : event :=
  send_patch_bay (5 - (i - 12)) (row_flags (nth (Z.to_nat i) buffer 0)).

(* ------------------------------------------------------------------ *)
(** ** Inputs used to exercise the statements *)

Definition example_reader : RepatcherReader := mkReader (mkScaler 0 0 1024 1).

Definition example_frame : list Z :=
  [0; 0;  0; 0;  0; 0;  0; 0;  0; 0;  128; 0;  0; 0; 0; 0; 0; 63].

Definition example_world : world := mkWorld [] [] [].

(* ------------------------------------------------------------------ *)
(** ** The knob value in binary64 *)

Module Binary64.

(** The rational a finite binary64 number stands for. *)
Definition to_Q (f : float) : option Q :=
  match Prim2SF f with
  | S754_zero _ => Some 0%Q
  | S754_finite s m e =>
      let n := if s then Z.neg m else Z.pos m in
      Some (if e <? 0 then n # Z.to_pos (Z.shiftl 1 (- e))
            else inject_Z (Z.shiftl n e))
  | _ => None
  end.

(** An [int] below 2^53 as a float. *)
Definition of_int (n : Z) : float := PrimFloat.of_uint63 (Uint63.of_Z n).

(** [Scaler.__call__] of the scaler built from [(0.0, 1024.0)] and
    [(0.0, 1.0)], on the int [raw_val]. *)
Definition knob_val (raw_val : Z) : float :=
  ((of_int raw_val - 0) / (1024 - 0) * (1 - 0) + 0)%float.

(** The binary64 value and the rational value of the knob agree on [raw]. *)
Definition agrees (raw : Z) : bool :=
  match to_Q (knob_val raw) with
  | Some q => Qeq_bool q ((inject_Z raw - 0) / (1024 - 0) * (1 - 0) + 0)%Q
  | None => false
  end.

(** [n] consecutive integers from [a]. *)
Fixpoint upto (n : nat) (a : Z) : list Z :=
  match n with
  | O => []
  | S n' => a :: upto n' (a + 1)
  end.

(** The class [Scaler] on floats.  [x / y] raises [ZeroDivisionError]
    when [y == 0.0]; every other operation returns a float, which may be
    an infinity or a NaN. *)
Record Scaler : Type := mkScaler {
  srcBeg : float;
  dstBeg : float;
  srcRng : float;
  dstRng : float
}.

Definition truediv (x y : float) : outcome float :=
  if (y =? 0)%float then Raise ZeroDivisionError else Ok (x / y)%float.

Definition Scaler_init (src dst : float * float) : outcome Scaler :=
  Ok {| srcBeg := fst src;
        dstBeg := fst dst;
        srcRng := snd src - fst src;
        dstRng := snd dst - fst dst |}%float.

Definition Scaler_call (self : Scaler) (val : float) : outcome float :=
  match truediv (val - srcBeg self) (srcRng self) with
  | Ok q => Ok (q * dstRng self + dstBeg self)%float
  | Raise e => Raise e
  | Blocked => Blocked
  end.

End Binary64.

(** Vocabulary of the proofs on binary64: the least exponent, a result
    that is a number other than zero, a result of a given sign, and the
    two constants 1024.0 and 1.0 as the specification writes them. *)
Definition emin64 : Z := -1074.

Definition nonzero_result (r : spec_float) : Prop :=
  match r with
  | S754_finite _ _ _ | S754_infinity _ => True
  | _ => False
  end.



(* ------------------------------------------------------------------ *)
(** ** class OscSender *)

(** The sender the program plugs into the reader.  An OSC message is kept
    as the builder holds it, an address and typed arguments: [build] is
    the identity, and the binary encoding it performs in the library (a
    float packed as binary32, an error on a value that cannot be packed)
    is not part of the model, so nothing below speaks of the bytes of a
    message or of values outside those of a frame.  What [print] writes
    is kept as the format and its arguments; failures of the network are
    left out. *)
Module Osc.
Import String.

(** An argument with the type tag [add_arg] infers from its Python type. *)
Inductive osc_arg : Type :=
| arg_float (x : Q)
| arg_int (n : Z).

Record OscMessage : Type := mkMessage {
  address : string;
  args : list osc_arg
}.

(** A line written by [print]: ["knob %d: %f"] or ["bay %d: %s"] with its
    arguments. *)
Inductive line : Type :=
| knob_line (knob_num : Z) (knob_val : Q)
| bay_line (output_num : Z) (values : list Z).

(** What the sender has produced: lines on the standard output and
    datagrams handed to the UDP client, oldest first. *)
Record outputs : Type := mkOutputs {
  stdout : list line;
  datagrams : list OscMessage
}.

Record OscSender : Type := mkSender {
  verbose : bool
}.

(** [str(n)] on an int. *)
Definition str (n : Z) : string :=
  DecimalString.NilZero.string_of_int (Z.to_int n).

Definition print (l : line) (o : outputs) : outputs :=
  {| stdout := stdout o ++ [l]; datagrams := datagrams o |}.

(** [OscMessageBuilder(address=...)], [builder.add_arg(v)] and
    [builder.build()]. *)
Definition OscMessageBuilder (addr : string) : OscMessage :=
  {| address := addr; args := [] |}.

Definition add_arg (builder : OscMessage) (a : osc_arg) : OscMessage :=
  {| address := address builder; args := args builder ++ [a] |}.

Definition build (builder : OscMessage) : OscMessage := builder.

(** [self.client.send(msg)]. *)
Definition client_send (msg : OscMessage) (o : outputs) : outputs :=
  {| stdout := stdout o; datagrams := datagrams o ++ [msg] |}.

Definition OscSender_send_knob (self : OscSender) (knob_num : Z) (knob_val : Q)
    (o : outputs) : outputs :=
  let o := if verbose self then print (knob_line knob_num knob_val) o else o in
  let builder := OscMessageBuilder ("/repatcher/knob" ++ str knob_num) in
  let builder := add_arg builder (arg_float knob_val) in
  let msg := build builder in
  client_send msg o.

Definition OscSender_send_patch_bay (self : OscSender) (output_num : Z)
    (values : list Z) (o : outputs) : outputs :=
  let o := if verbose self then print (bay_line output_num values) o else o in
  let builder := OscMessageBuilder ("/repatcher/output" ++ str output_num) in
  let builder := fold_left (fun b v => add_arg b (arg_int v)) values builder in
  let msg := build builder in
  client_send msg o.

(** A call the reader makes on its sender, received by an [OscSender]. *)
Definition receive (self : OscSender) (e : event) (o : outputs) : outputs :=
  match e with
  | send_knob knob_num knob_val =>
      OscSender_send_knob self knob_num knob_val o
  | send_patch_bay output_num values =>
      OscSender_send_patch_bay self output_num values o
  end.

(** The calls of a log, received in order. *)
Definition receive_all (self : OscSender) (evs : list event) (o : outputs) : outputs :=
  fold_left (fun o e => receive self e o) evs o.

(** The addresses of the twelve messages of a frame. *)
Definition frame_addresses : list string :=
  ["/repatcher/knob5"%string; "/repatcher/knob4"%string; "/repatcher/knob3"%string;
   "/repatcher/knob2"%string; "/repatcher/knob1"%string; "/repatcher/knob0"%string;
   "/repatcher/output5"%string; "/repatcher/output4"%string; "/repatcher/output3"%string;
   "/repatcher/output2"%string; "/repatcher/output1"%string; "/repatcher/output0"%string].

End Osc.

(** Case analysis on membership in an explicit list of indices. *)
Ltac pick_index H :=
  repeat (destruct H as [<- | H]; [ | ]); [ .. | destruct H ].

(* ------------------------------------------------------------------ *)
(** ** The monad and the world *)

Lemma log_nil (w : world) : log w [] = w.
Proof. destruct w; unfold log; simpl. now rewrite app_nil_r. Qed.

Lemma log_log (w : world) (a b : list event) : log (log w a) b = log w (a ++ b).
Proof. unfold log; simpl. now rewrite app_assoc. Qed.

Lemma sender_call_log (e : event) (w : world) :
  sender_call e w = (Ok tt, log w [e]).
Proof. reflexivity. Qed.

Lemma bind_ok {A B} (c : M A) (k : A -> M B) (w w' : world) (a : A) :
  c w = (Ok a, w') -> bind c k w = k a w'.
Proof. intros H. unfold bind. now rewrite H. Qed.

Lemma bind_lift_ok {A B} (o : outcome A) (k : A -> M B) (w : world) (a : A) :
  o = Ok a -> bind (lift o) k w = k a w.
Proof. intros ->. reflexivity. Qed.

(** A loop whose body, at each element, only makes one sender call. *)
Lemma for_each_log {A} (f : A -> event) (body : A -> M unit) (xs : list A) :
  (forall x w, In x xs -> body x w = (Ok tt, log w [f x])) ->
  forall w, for_each xs body w = (Ok tt, log w (map f xs)).
Proof.
  induction xs as [|x xs IH]; intros Hbody w; simpl.
  - unfold ret. now rewrite log_nil.
  - erewrite bind_ok by (apply Hbody; now left).
    rewrite IH by (intros; apply Hbody; now right).
    now rewrite log_log.
Qed.

(** A comprehension whose element expression is the pure [g]. *)
Lemma comprehension_pure {A B} (g : A -> B) (f : A -> M B) (xs : list A) (w : world) :
  (forall x, In x xs -> f x w = (Ok (g x), w)) ->
  comprehension f xs w = (Ok (map g xs), w).
Proof.
  induction xs as [|x xs IH]; intros Hf; simpl; [reflexivity|].
  erewrite bind_ok by (apply Hf; now left).
  erewrite bind_ok by (apply IH; intros; apply Hf; now right).
  reflexivity.
Qed.

(* ------------------------------------------------------------------ *)
(** ** Indexing *)

Lemma getitem_nth (buffer : list Z) (i : Z) :
  0 <= i < Z.of_nat (length buffer) ->
  Py.getitem buffer i = Ok (nth (Z.to_nat i) buffer 0).
Proof.
  intros [Hlo Hhi]. unfold Py.getitem.
  destruct (i <? 0) eqn:E; [apply Z.ltb_lt in E; lia|].
  rewrite E; simpl.
  destruct (Z.of_nat (length buffer) <=? i) eqn:E'; [apply Z.leb_le in E'; lia|].
  rewrite (nth_error_nth' buffer 0) by lia. reflexivity.
Qed.

(* ------------------------------------------------------------------ *)
(** ** The scaler *)

Lemma Scaler_call_ok (s : Scaler) (v : Q) :
  ~ (srcRng s == 0)%Q ->
  Scaler_call s v = Ok ((v - srcBeg s) / srcRng s * dstRng s + dstBeg s)%Q.
Proof.
  intros H. unfold Scaler_call, Py.truediv.
  destruct (Qeq_bool (srcRng s) 0) eqn:E; [|reflexivity].
  apply Qeq_bool_iff in E. contradiction.
Qed.

(** The reader that [__init__] builds holds the 0-1024 to 0-1 scaler. *)
Lemma init_scaler (self : RepatcherReader) :
  RepatcherReader_init = Ok self ->
  scaler self = mkScaler 0 0 (1024 - 0) (1 - 0).
Proof. intros H. injection H as <-. reflexivity. Qed.

Lemma reader_scaler_call (self : RepatcherReader) (v : Q) :
  RepatcherReader_init = Ok self ->
  Scaler_call (scaler self) v = Ok ((v - 0) / (1024 - 0) * (1 - 0) + 0)%Q.
Proof.
  intros H. rewrite (init_scaler _ H).
  rewrite Scaler_call_ok; [reflexivity|]. simpl. discriminate.
Qed.

(* ------------------------------------------------------------------ *)
(** ** Binary64 and the rationals agree on the knob values *)

Lemma in_upto (n : nat) (a z : Z) :
  a <= z < a + Z.of_nat n -> In z (Binary64.upto n a).
Proof.
  revert a. induction n as [|n IH]; intros a H; [lia|].
  cbn [Binary64.upto]. destruct (Z.eq_dec a z) as [->|Hne]; [now left|].
  right. apply IH. lia.
Qed.

Lemma binary64_agrees_all :
  forallb Binary64.agrees (Binary64.upto (Z.to_nat 32768) 0) = true.
Proof. vm_compute. reflexivity. Qed.

(** The word of two bytes has 15 bits. *)
Lemma word_bound (lo hi : Z) :
  0 <= lo < 256 -> 0 <= hi < 256 -> 0 <= Z.lor (Z.shiftl hi 7) lo < 32768.
Proof.
  intros Hlo Hhi.
  assert (Hs : 0 <= Z.shiftl hi 7 < 2 ^ 15)
    by (rewrite Z.shiftl_mul_pow2 by lia; lia).
  split; [apply Z.lor_nonneg; lia|].
  destruct (Z.eq_dec (Z.lor (Z.shiftl hi 7) lo) 0) as [->|Hnz]; [lia|].
  apply Z.log2_lt_cancel. rewrite Z.log2_lor by lia.
  change (Z.log2 32768) with 15.
  apply Z.max_lub_lt.
  - destruct (Z.eq_dec (Z.shiftl hi 7) 0) as [->|]; [reflexivity|].
    apply Z.log2_lt_pow2; lia.
  - destruct (Z.eq_dec lo 0) as [->|]; [reflexivity|].
    apply Z.log2_lt_pow2; lia.
Qed.

(** On the word of any two bytes, the scaler's binary64 result is finite
    and is exactly the rational the embedding computes. *)
Lemma binary64_knob_val (lo hi : Z) :
  0 <= lo < 256 -> 0 <= hi < 256 ->
  exists q,
    Binary64.to_Q (Binary64.knob_val (Z.lor (Z.shiftl hi 7) lo)) = Some q /\
    (q == (inject_Z (Z.lor (Z.shiftl hi 7) lo) - 0) / (1024 - 0) * (1 - 0) + 0)%Q.
Proof.
  intros Hlo Hhi.
  pose proof (word_bound lo hi Hlo Hhi) as Hw.
  assert (Hin : In (Z.lor (Z.shiftl hi 7) lo) (Binary64.upto (Z.to_nat 32768) 0))
    by (apply in_upto; rewrite Z2Nat.id; lia).
  pose proof (proj1 (forallb_forall _ _) binary64_agrees_all _ Hin) as H.
  unfold Binary64.agrees in H.
  destruct (Binary64.to_Q _) as [q|]; [|discriminate].
  exists q. split; [reflexivity|]. now apply Qeq_bool_iff.
Qed.

(* ------------------------------------------------------------------ *)
(** ** What the two decoding loops send *)

Lemma range_knobs : Py.range3 0 12 2 = [0; 2; 4; 6; 8; 10].
Proof. reflexivity. Qed.

Lemma range_bays : Py.range 12 18 = [12; 13; 14; 15; 16; 17].
Proof. reflexivity. Qed.

Lemma knob_num_eq (i : Z) :
  In i [0; 2; 4; 6; 8; 10] ->
  Py.int_of_float (5 - inject_Z i / 2)%Q = 5 - i / 2.
Proof. intros H. pick_index H; reflexivity. Qed.

Lemma knob_index_bounds (i : Z) :
  In i [0; 2; 4; 6; 8; 10] -> 0 <= i /\ i + 1 < 12.
Proof. intros H. pick_index H; lia. Qed.

Lemma bay_index_bounds (i : Z) :
  In i [12; 13; 14; 15; 16; 17] <-> 12 <= i <= 17.
Proof.
  split; intros H.
  - pick_index H; lia.
  - simpl. lia.
Qed.

Lemma read_knobs_run (self : RepatcherReader) (buffer : list Z) (w : world) :
  RepatcherReader_init = Ok self ->
  length buffer = 18%nat ->
  _read_knobs self buffer w = (Ok tt, log w (map (knob_event buffer) [0; 2; 4; 6; 8; 10])).
Proof.
  intros Hself Hlen. unfold _read_knobs. rewrite range_knobs.
  apply for_each_log. intros i w' Hi.
  destruct (knob_index_bounds _ Hi) as [Hlo Hhi].
  erewrite bind_lift_ok by (apply getitem_nth; lia).
  erewrite bind_lift_ok by (apply getitem_nth; lia).
  erewrite bind_lift_ok by (apply reader_scaler_call; exact Hself).
  rewrite sender_call_log, (knob_num_eq _ Hi). reflexivity.
Qed.

Lemma read_patch_bay_run (self : RepatcherReader) (buffer : list Z) (w : world) :
  length buffer = 18%nat ->
  _read_patch_bay self buffer w
  = (Ok tt, log w (map (bay_event buffer) [12; 13; 14; 15; 16; 17])).
Proof.
  intros Hlen. unfold _read_patch_bay. rewrite range_bays.
  apply for_each_log. intros i w' Hi.
  apply bay_index_bounds in Hi.
  erewrite bind_ok.
  2:{ apply comprehension_pure with
        (g := fun mask => if Z.land (nth (Z.to_nat i) buffer 0) mask =? mask then 1 else 0).
      intros mask _. erewrite bind_lift_ok by (apply getitem_nth; lia). reflexivity. }
  rewrite sender_call_log. reflexivity.
Qed.

Lemma decode_run (self : RepatcherReader) (buffer : list Z) (w : world) :
  RepatcherReader_init = Ok self ->
  length buffer = 18%nat ->
  (_read_knobs self buffer ;; _read_patch_bay self buffer) w
  = (Ok tt, log w (map (knob_event buffer) [0; 2; 4; 6; 8; 10]
                   ++ map (bay_event buffer) [12; 13; 14; 15; 16; 17])).
Proof.
  intros Hself Hlen.
  erewrite bind_ok by (apply read_knobs_run; assumption).
  rewrite read_patch_bay_run by assumption.
  now rewrite log_log.
Qed.

Lemma example_reader_init : RepatcherReader_init = Ok example_reader.
Proof. reflexivity. Qed.

(* ------------------------------------------------------------------ *)
(** ** Frame decoding *)

(** C1. For a buffer of 18 bytes, [_read_knobs] returns normally after
    six sender calls.  For each byte-pair offset [i] of 0, 2, 4, 6, 8, 10
    the call at position [i/2] is [send_knob] with knob number [5 - i/2]
    and with the value the scaler returns on the raw word
    [(buffer[i+1] << 7) | buffer[i]].  So the pair at offset 0 goes to
    knob 5 and the pair at offset 10 to knob 0. *)
Theorem read_knobs_decode (self : RepatcherReader) (buffer : list Z) (w : world) :
  RepatcherReader_init = Ok self ->
  length buffer = 18%nat ->
  exists evs,
    _read_knobs self buffer w = (Ok tt, log w evs) /\
    length evs = 6%nat /\
    (forall i, In i [0; 2; 4; 6; 8; 10] ->
       exists lo hi knob_val,
         Py.getitem buffer i = Ok lo /\
         Py.getitem buffer (i + 1) = Ok hi /\
         Scaler_call (scaler self) (inject_Z (Z.lor (Z.shiftl hi 7) lo)) = Ok knob_val /\
         nth_error evs (Z.to_nat (i / 2)) = Some (send_knob (5 - i / 2) knob_val)) /\
    (exists v, nth_error evs (Z.to_nat (0 / 2)) = Some (send_knob 5 v)) /\
    (exists v, nth_error evs (Z.to_nat (10 / 2)) = Some (send_knob 0 v)).
Proof.
  intros Hself Hlen.
  exists (map (knob_event buffer) [0; 2; 4; 6; 8; 10]).
  split; [now apply read_knobs_run|].
  split; [reflexivity|].
  split; [|split; eexists; reflexivity].
  intros i Hi.
  destruct (knob_index_bounds i Hi) as [Hlo Hhi].
  exists (nth (Z.to_nat i) buffer 0), (nth (Z.to_nat (i + 1)) buffer 0).
  eexists.
  split; [apply getitem_nth; lia|].
  split; [apply getitem_nth; lia|].
  split; [apply reader_scaler_call; exact Hself|].
  pick_index Hi; reflexivity.
Qed.

Lemma read_knobs_decode_witness :
  exists evs,
    _read_knobs example_reader example_frame example_world
    = (Ok tt, log example_world evs) /\
    nth_error evs 5 = Some (send_knob 0 (128 # 1024)).
Proof.
  destruct (read_knobs_decode example_reader example_frame example_world
              eq_refl eq_refl) as (evs & Hrun & _).
  exists evs. split; [exact Hrun|].
  vm_compute in Hrun. injection Hrun as <-. reflexivity.
Defined.

(** C2. For a buffer of 18 bytes, [_read_patch_bay] returns normally after
    six sender calls.  For each byte offset [i] from 12 to 17 the call at
    position [i - 12] is [send_patch_bay] with output number
    [5 - (i - 12)] and the six flags got by testing the masks 32, 16, 8,
    4, 2, 1 in that order against [buffer[i]] (1 when
    [(buffer[i] & mask) == mask], else 0).  A row byte of 32 gives
    [1,0,0,0,0,0], of 1 gives [0,0,0,0,0,1], of 63 gives [1,1,1,1,1,1];
    offset 12 goes to output 5 and offset 17 to output 0. *)
Theorem read_patch_bay_decode (self : RepatcherReader) (buffer : list Z) (w : world) :
  length buffer = 18%nat ->
  exists evs,
    _read_patch_bay self buffer w = (Ok tt, log w evs) /\
    length evs = 6%nat /\
    (forall i, 12 <= i <= 17 ->
       exists b connections,
         Py.getitem buffer i = Ok b /\
         nth_error evs (Z.to_nat (i - 12))
         = Some (send_patch_bay (5 - (i - 12)) connections) /\
         connections
         = map (fun mask => if Z.land b mask =? mask then 1 else 0)
               [32; 16; 8; 4; 2; 1] /\
         length connections = 6%nat /\
         (b = 32 -> connections = [1; 0; 0; 0; 0; 0]) /\
         (b = 1 -> connections = [0; 0; 0; 0; 0; 1]) /\
         (b = 63 -> connections = [1; 1; 1; 1; 1; 1])) /\
    (exists c, nth_error evs (Z.to_nat (12 - 12)) = Some (send_patch_bay 5 c)) /\
    (exists c, nth_error evs (Z.to_nat (17 - 12)) = Some (send_patch_bay 0 c)).
Proof.
  intros Hlen.
  exists (map (bay_event buffer) [12; 13; 14; 15; 16; 17]).
  split; [now apply read_patch_bay_run|].
  split; [reflexivity|].
  split; [|split; eexists; reflexivity].
  intros i Hi.
  exists (nth (Z.to_nat i) buffer 0), (row_flags (nth (Z.to_nat i) buffer 0)).
  split; [apply getitem_nth; lia|].
  split; [apply bay_index_bounds in Hi; pick_index Hi; reflexivity|].
  split; [reflexivity|].
  split; [reflexivity|].
  repeat split; intros ->; reflexivity.
Qed.

Lemma read_patch_bay_decode_witness :
  exists evs,
    _read_patch_bay example_reader example_frame example_world
    = (Ok tt, log example_world evs) /\
    nth_error evs 5 = Some (send_patch_bay 0 [1; 1; 1; 1; 1; 1]).
Proof.
  destruct (read_patch_bay_decode example_reader example_frame example_world
              eq_refl) as (evs & Hrun & _).
  exists evs. split; [exact Hrun|].
  vm_compute in Hrun. injection Hrun as <-. reflexivity.
Defined.

(** C3. Decoding a frame of 18 bytes, as [read] does it ([_read_knobs]
    then [_read_patch_bay]), returns normally after exactly twelve sender
    calls, in this order: knob 5, 4, 3, 2, 1, 0 from the byte pairs at
    offsets 0, 2, 4, 6, 8, 10, then output 5, 4, 3, 2, 1, 0 from the bytes
    at offsets 12 to 17. *)
Theorem decode_order (self : RepatcherReader) (w : world)
    (b0 b1 b2 b3 b4 b5 b6 b7 b8 b9 b10 b11 b12 b13 b14 b15 b16 b17 : Z) :
  RepatcherReader_init = Ok self ->
  let buffer :=
    [b0; b1; b2; b3; b4; b5; b6; b7; b8; b9; b10; b11; b12; b13; b14; b15; b16; b17] in
  let knob lo hi :=
    ((inject_Z (Z.lor (Z.shiftl hi 7) lo) - 0) / (1024 - 0) * (1 - 0) + 0)%Q in
  (_read_knobs self buffer ;; _read_patch_bay self buffer) w
  = (Ok tt,
     log w [send_knob 5 (knob b0 b1);
            send_knob 4 (knob b2 b3);
            send_knob 3 (knob b4 b5);
            send_knob 2 (knob b6 b7);
            send_knob 1 (knob b8 b9);
            send_knob 0 (knob b10 b11);
            send_patch_bay 5 (row_flags b12);
            send_patch_bay 4 (row_flags b13);
            send_patch_bay 3 (row_flags b14);
            send_patch_bay 2 (row_flags b15);
            send_patch_bay 1 (row_flags b16);
            send_patch_bay 0 (row_flags b17)]).
Proof.
  intros Hself buffer knob.
  rewrite decode_run by (exact Hself || reflexivity).
  reflexivity.
Qed.

Lemma decode_order_witness :
  (_read_knobs example_reader example_frame ;;
   _read_patch_bay example_reader example_frame) example_world
  = (Ok tt,
     log example_world
         [send_knob 5 (0 # 1024); send_knob 4 (0 # 1024); send_knob 3 (0 # 1024);
          send_knob 2 (0 # 1024); send_knob 1 (0 # 1024); send_knob 0 (128 # 1024);
          send_patch_bay 5 [0; 0; 0; 0; 0; 0]; send_patch_bay 4 [0; 0; 0; 0; 0; 0];
          send_patch_bay 3 [0; 0; 0; 0; 0; 0]; send_patch_bay 2 [0; 0; 0; 0; 0; 0];
          send_patch_bay 1 [0; 0; 0; 0; 0; 0]; send_patch_bay 0 [1; 1; 1; 1; 1; 1]]).
Proof.
  exact (decode_order example_reader example_world
           0 0 0 0 0 0 0 0 0 0 128 0 0 0 0 0 0 63 example_reader_init).
Defined.

(* ------------------------------------------------------------------ *)
(** ** The read loop *)

Lemma bind_ret_tt (c : M unit) (w : world) : (c ;; ret tt) w = c w.
Proof.
  unfold bind, ret. destruct (c w) as [[[]| |] w']; reflexivity.
Qed.

Lemma ser_read_exact (n : nat) (frame rest : list Z) (fl : list nat) (sn : list event) :
  length frame = n ->
  ser_read n (mkWorld (frame ++ rest) fl sn) = (Ok frame, mkWorld rest fl sn).
Proof.
  intros <-. unfold ser_read; simpl.
  replace (length frame <=? length (frame ++ rest))%nat with true
    by (symmetry; apply Nat.leb_le; rewrite length_app; lia).
  rewrite firstn_app, skipn_app, Nat.sub_diag, firstn_all, skipn_all; simpl.
  now rewrite app_nil_r.
Qed.

Lemma ser_flushInput_run (s : list Z) (fl : list nat) (sn : list event) :
  ser_flushInput (mkWorld s fl sn)
  = (Ok tt, mkWorld (skipn (hd 0%nat fl) s) (tl fl) sn).
Proof. destruct fl; reflexivity. Qed.

(** A pass of the loop on a byte that is not the marker consumes that
    byte and nothing else. *)
Lemma read_body_stray (self : RepatcherReader) (b : Z) (s : list Z)
    (fl : list nat) (sn : list event) :
  b <> 0xc0 ->
  read_body self (mkWorld (b :: s) fl sn) = (Ok tt, mkWorld s fl sn).
Proof.
  intros Hb. unfold read_body.
  erewrite bind_ok by (apply (ser_read_exact 1 [b] s); reflexivity).
  simpl. destruct (b =? 192) eqn:E; [apply Z.eqb_eq in E; contradiction|].
  reflexivity.
Qed.

(** A pass of the loop on the marker takes the 18 bytes after it as the
    buffer, flushes the port and decodes the buffer. *)
Lemma read_body_marker (self : RepatcherReader) (frame rest : list Z)
    (fl : list nat) (sn : list event) :
  length frame = 18%nat ->
  read_body self (mkWorld (0xc0 :: frame ++ rest) fl sn)
  = (_read_knobs self frame ;; _read_patch_bay self frame)
      (mkWorld (skipn (hd 0%nat fl) rest) (tl fl) sn).
Proof.
  intros Hlen. unfold read_body.
  erewrite bind_ok by (apply (ser_read_exact 1 [0xc0] (frame ++ rest)); reflexivity).
  change (bytes_eqb [0xc0] MESSAGE_BUFFER_START) with true. cbv iota.
  erewrite (bind_ok (ser_read BUFFER_LEN)) by (apply ser_read_exact; exact Hlen).
  erewrite (bind_ok ser_flushInput) by apply ser_flushInput_run.
  reflexivity.
Qed.

Lemma read_stray (self : RepatcherReader) (stray tail : list Z)
    (fl : list nat) (sn : list event) :
  Forall (fun b => b <> 0xc0) stray ->
  forall k, (k <= length stray)%nat ->
  read self k (mkWorld (stray ++ tail) fl sn)
  = (Ok tt, mkWorld (skipn k stray ++ tail) fl sn).
Proof.
  induction 1 as [|b s Hb Hs IH]; intros k Hk.
  - simpl in Hk. assert (k = 0%nat) as -> by lia. reflexivity.
  - destruct k as [|k]; [reflexivity|].
    simpl in Hk. cbn [read app skipn].
    erewrite bind_ok by (apply read_body_stray; exact Hb).
    apply IH. lia.
Qed.

Lemma read_plus (self : RepatcherReader) (n m : nat) (w w' : world) :
  read self n w = (Ok tt, w') ->
  read self (n + m) w = read self m w'.
Proof.
  revert w. induction n as [|n IH]; intros w H; simpl in *.
  - unfold ret in H. now injection H as <-.
  - unfold bind in *. destruct (read_body self w) as [[[]| |] w1]; try discriminate.
    now apply IH.
Qed.

(** C4. The loop takes the port's bytes one at a time until it meets the
    marker 0xC0: with a stream of stray bytes (none of them the marker),
    then the marker, then 18 bytes, then anything, each of the first
    passes consumes exactly one stray byte and calls nothing.  The pass
    that meets the marker takes exactly the 18 bytes after it as the
    buffer (the marker is not in it) and decodes that buffer as it would
    on its own: it returns normally after twelve sender calls. *)
Theorem read_resynchronises (self : RepatcherReader) (stray frame rest : list Z)
    (flush : list nat) (sent0 : list event) :
  RepatcherReader_init = Ok self ->
  Forall (fun b => b <> 0xc0) stray ->
  length frame = 18%nat ->
  let w0 := mkWorld (stray ++ 0xc0 :: frame ++ rest) flush sent0 in
  let w1 := mkWorld (skipn (hd 0%nat flush) rest) (tl flush) sent0 in
  (forall k, (k <= length stray)%nat ->
     read self k w0 = (Ok tt, mkWorld (skipn k stray ++ 0xc0 :: frame ++ rest) flush sent0)) /\
  read self (S (length stray)) w0
  = (_read_knobs self frame ;; _read_patch_bay self frame) w1 /\
  exists evs,
    read self (S (length stray)) w0 = (Ok tt, log w1 evs) /\
    length evs = 12%nat.
Proof.
  intros Hself Hstray Hlen w0 w1.
  assert (Hpass : read self (S (length stray)) w0
                  = (_read_knobs self frame ;; _read_patch_bay self frame) w1).
  { replace (S (length stray)) with (length stray + 1)%nat by lia.
    erewrite read_plus by (apply read_stray; [exact Hstray|reflexivity]).
    rewrite skipn_all. cbn [read app].
    rewrite bind_ret_tt. now apply read_body_marker. }
  split; [intros k Hk; now apply read_stray|].
  split; [exact Hpass|].
  eexists. split.
  - rewrite Hpass. now apply decode_run.
  - reflexivity.
Qed.

Lemma read_resynchronises_witness :
  read example_reader 4
       (mkWorld ([1; 2; 3] ++ 0xc0 :: example_frame ++ [7; 8; 0xc0]) [1%nat] [])
  = (_read_knobs example_reader example_frame ;;
     _read_patch_bay example_reader example_frame) (mkWorld [8; 0xc0] [] []).
Proof.
  refine (proj1 (proj2 (read_resynchronises example_reader [1; 2; 3] example_frame
                          [7; 8; 0xc0] [1%nat] [] example_reader_init _ eq_refl))).
  repeat constructor; discriminate.
Defined.

(* ------------------------------------------------------------------ *)
(** ** Binary64: subtraction, and division by 1024

    What the scaler needs of binary64, from the specification of the
    primitive floats: two floats differ exactly when their difference is
    not zero (for finite ones), the division of a float of 53 bits by
    1024 and its product by 1 are exact, and the sign of a quotient. *)

Lemma digits_log2 (p : positive) : Z.pos (digits2_pos p) = Z.log2 (Z.pos p) + 1.
Proof.
  induction p as [p IH|p IH|]; cbn [digits2_pos]; [| |reflexivity];
    rewrite Pos2Z.inj_succ, IH.
  - rewrite (Pos2Z.inj_xI p), Z.log2_succ_double by lia. lia.
  - rewrite (Pos2Z.inj_xO p), Z.log2_double by lia. lia.
Qed.

Lemma digits_bounds (p : positive) :
  2 ^ (Z.pos (digits2_pos p) - 1) <= Z.pos p.
Proof.
  rewrite digits_log2. replace (Z.log2 (Z.pos p) + 1 - 1) with (Z.log2 (Z.pos p)) by lia.
  apply Z.log2_spec. lia.
Qed.

Lemma shr_1_half (mrs : shr_record) :
  0 <= shr_m mrs -> shr_m (shr_1 mrs) = shr_m mrs / 2.
Proof.
  destruct mrs as [m r s]. cbn [shr_m shr_1]. intros Hm.
  destruct m as [|[p|p|]|p]; cbn [shr_m]; try lia;
    rewrite <- Z.div2_div; reflexivity.
Qed.

Lemma shr_m_iter (p : positive) (mrs : shr_record) :
  0 <= shr_m mrs ->
  shr_m (iter_pos shr_1 p mrs) = shr_m mrs / 2 ^ Z.pos p.
Proof.
  revert mrs. induction p as [p IH|p IH|]; intros mrs Hm; cbn [iter_pos].
  - assert (H1 : 0 <= shr_m (shr_1 mrs)) by (rewrite shr_1_half by lia; apply Z.div_pos; lia).
    assert (H2 : 0 <= shr_m (iter_pos shr_1 p (shr_1 mrs)))
      by (rewrite IH by lia; apply Z.div_pos; lia).
    rewrite IH, IH, shr_1_half by lia.
    rewrite !Z.div_div by lia.
    rewrite Pos2Z.inj_xI, Z.pow_add_r, Z.pow_mul_r by lia.
    f_equal. change (2 ^ 1) with 2. rewrite <- Z.pow_mul_r, <- Z.pow_add_r by lia.
    replace (Z.pos p + Z.pos p) with (2 * Z.pos p) by lia. lia.
  - assert (H2 : 0 <= shr_m (iter_pos shr_1 p mrs))
      by (rewrite IH by lia; apply Z.div_pos; lia).
    rewrite IH, IH by lia.
    rewrite !Z.div_div by lia.
    rewrite Pos2Z.inj_xO. f_equal. rewrite <- Z.pow_add_r by lia. f_equal. lia.
  - rewrite shr_1_half by lia. reflexivity.
Qed.

Lemma shr_fexp_pos (m e : Z) (l : location) :
  0 < m -> emin64 <= e ->
  0 < shr_m (fst (shr_fexp prec emax m e l)) /\
  emin64 <= snd (shr_fexp prec emax m e l).
Proof.
  intros Hm He. unfold shr_fexp, shr, emin64 in *.
  assert (Hrec : shr_m (shr_record_of_loc m l) = m) by (destruct l as [|[]]; reflexivity).
  destruct m as [|p|p]; try lia. cbn [Zdigits2].
  destruct (fexp prec emax (Z.pos (digits2_pos p) + e) - e) as [|q|q] eqn:En;
    cbn [fst snd]; rewrite ?Hrec; try (split; lia).
  unfold fexp, SpecFloat.emin, prec, emax in En.
  rewrite shr_m_iter by (rewrite Hrec; lia). rewrite Hrec.
  split; [|lia].
  apply Z.div_str_pos. split; [apply Z.pow_pos_nonneg; lia|].
  apply Z.le_trans with (2 ^ (Z.pos (digits2_pos p) - 1)); [|apply digits_bounds].
  apply Z.pow_le_mono_r; lia.
Qed.

Lemma binary_round_aux_nonzero (s : bool) (m e : Z) (l : location) :
  0 < m -> emin64 <= e -> nonzero_result (binary_round_aux prec emax s m e l).
Proof.
  intros Hm He. unfold binary_round_aux.
  pose proof (shr_fexp_pos m e l Hm He) as [H1 H2].
  destruct (shr_fexp prec emax m e l) as [mrs' e']. cbn [fst snd] in H1, H2.
  assert (Hr : 0 < round_nearest_even (shr_m mrs') (loc_of_shr_record mrs')).
  { unfold round_nearest_even.
    destruct (loc_of_shr_record mrs') as [|[]]; try lia.
    destruct (Z.even (shr_m mrs')); lia. }
  pose proof (shr_fexp_pos _ e' loc_Exact Hr H2) as [H3 _].
  destruct (shr_fexp prec emax _ e' loc_Exact) as [mrs'' e'']. cbn [fst] in H3.
  destruct (shr_m mrs''); try lia.
  destruct (e'' <=? emax - prec); exact I.
Qed.

Lemma fexp_ge_emin (k : Z) : emin64 <= fexp prec emax k.
Proof. unfold fexp, SpecFloat.emin, prec, emax, emin64. lia. Qed.

Lemma binary_round_nonzero (s : bool) (m : positive) (e : Z) :
  emin64 <= e -> nonzero_result (binary_round prec emax s m e).
Proof.
  intros He. unfold binary_round, shl_align.
  destruct (fexp prec emax (Z.pos (digits2_pos m) + e) - e) eqn:E;
    apply binary_round_aux_nonzero; try lia; try exact He.
  apply fexp_ge_emin.
Qed.

Lemma binary_normalize_nonzero (d e : Z) (szero : bool) :
  d <> 0 -> emin64 <= e -> nonzero_result (binary_normalize prec emax d e szero).
Proof.
  intros Hd He. destruct d; [contradiction| |]; now apply binary_round_nonzero.
Qed.

Lemma iter_xO (m d : positive) : Z.pos (Pos.iter xO m d) = Z.pos m * 2 ^ Z.pos d.
Proof.
  induction d as [|d IH] using Pos.peano_ind.
  - simpl. lia.
  - rewrite Pos.iter_succ, Pos2Z.inj_xO, IH, Pos2Z.inj_succ, Z.pow_succ_r by lia. lia.
Qed.

Lemma shl_align_value (m : positive) (e e' : Z) :
  e' <= e -> Z.pos (fst (shl_align m e e')) = Z.pos m * 2 ^ (e - e').
Proof.
  intros Hle. unfold shl_align.
  destruct (e' - e) as [|d|d] eqn:E; cbn [fst]; try lia.
  - replace (e - e') with 0 by lia. simpl. lia.
  - rewrite iter_xO. f_equal. f_equal. lia.
Qed.

Lemma canonical_exponent (m : positive) (e : Z) :
  bounded prec emax m e = true ->
  e = fexp prec emax (Z.pos (digits2_pos m) + e) /\ emin64 <= e.
Proof.
  unfold bounded, canonical_mantissa. intros H.
  apply andb_true_iff in H as [H _]. apply Z.eqb_eq in H.
  split; [now symmetry|]. rewrite <- H. apply fexp_ge_emin.
Qed.

(** Two canonical mantissas that stand for the same number are the same. *)
Lemma canonical_unique (mx my : positive) (ex ey : Z) :
  bounded prec emax mx ex = true ->
  bounded prec emax my ey = true ->
  ex <= ey ->
  Z.pos mx = Z.pos my * 2 ^ (ey - ex) ->
  ex = ey /\ mx = my.
Proof.
  intros Hx Hy Hle Hval.
  apply canonical_exponent in Hx as [Hx _], Hy as [Hy _].
  assert (Hd : Z.pos (digits2_pos mx) = Z.pos (digits2_pos my) + (ey - ex)).
  { rewrite !digits_log2, Hval, Z.log2_mul_pow2 by lia. lia. }
  assert (ex = ey).
  { rewrite Hx, Hy. f_equal. lia. }
  subst ey. split; [reflexivity|].
  rewrite Z.sub_diag in Hval. simpl in Hval. lia.
Qed.

Lemma SFcompare_refl (s : bool) (m : positive) (e : Z) :
  SFcompare (S754_finite s m e) (S754_finite s m e) = Some Eq.
Proof.
  cbn [SFcompare]. rewrite Z.compare_refl.
  change (Pos.compare_cont Eq m m) with (Pos.compare m m).
  rewrite Pos.compare_refl. destruct s; reflexivity.
Qed.

Lemma SFsub_finite_nonzero (sx sy : bool) (mx my : positive) (ex ey : Z) :
  bounded prec emax mx ex = true ->
  bounded prec emax my ey = true ->
  SFcompare (S754_finite sx mx ex) (S754_finite sy my ey) <> Some Eq ->
  nonzero_result (SF64sub (S754_finite sx mx ex) (S754_finite sy my ey)).
Proof.
  intros Hx Hy Hne. unfold SF64sub. cbn [SFsub].
  pose proof (canonical_exponent _ _ Hx) as [_ Hex].
  pose proof (canonical_exponent _ _ Hy) as [_ Hey].
  apply binary_normalize_nonzero; [|lia].
  rewrite !shl_align_value by lia.
  intros Hd.
  assert (Hpx : 0 < Z.pos mx * 2 ^ (ex - Z.min ex ey))
    by (apply Z.mul_pos_pos; [lia|apply Z.pow_pos_nonneg; lia]).
  assert (Hpy : 0 < Z.pos my * 2 ^ (ey - Z.min ex ey))
    by (apply Z.mul_pos_pos; [lia|apply Z.pow_pos_nonneg; lia]).
  assert (Hs : sx = sy) by (destruct sx, sy; cbn [cond_Zopp] in Hd; try reflexivity; lia).
  subst sy.
  assert (Heq : Z.pos mx * 2 ^ (ex - Z.min ex ey) = Z.pos my * 2 ^ (ey - Z.min ex ey))
    by (destruct sx; cbn [cond_Zopp] in Hd; lia).
  apply Hne.
  destruct (Z.le_ge_cases ex ey) as [Hle|Hge].
  - rewrite Z.min_l, Z.sub_diag, Z.mul_1_r in Heq by lia.
    destruct (canonical_unique mx my ex ey Hx Hy Hle Heq) as [-> ->].
    apply SFcompare_refl.
  - rewrite Z.min_r, Z.sub_diag, Z.mul_1_r in Heq by lia.
    destruct (canonical_unique my mx ey ex Hy Hx Hge (eq_sym Heq)) as [-> ->].
    apply SFcompare_refl.
Qed.

Lemma Prim2SF_zero : Prim2SF 0 = S754_zero false.
Proof. reflexivity. Qed.

Lemma nonzero_result_neq_zero (r : spec_float) :
  nonzero_result r -> SFeqb r (S754_zero false) = false.
Proof. destruct r as [| [] | | [] ? ?]; simpl; intros H; try contradiction; reflexivity. Qed.

Lemma valid_finite (x : float) (s : bool) (m : positive) (e : Z) :
  Prim2SF x = S754_finite s m e -> bounded prec emax m e = true.
Proof. intros H. pose proof (Prim2SF_valid x) as V. now rewrite H in V. Qed.

(** Two different floats have a difference that is not zero. *)
Lemma sub_nonzero (x y : float) :
  (x =? y)%float = false -> (x - y =? 0)%float = false.
Proof.
  rewrite !eqb_spec, sub_spec, Prim2SF_zero. unfold SFeqb at 1.
  pose proof (valid_finite x) as Vx. pose proof (valid_finite y) as Vy.
  destruct (Prim2SF x) as [sx|sx| |sx mx ex], (Prim2SF y) as [sy|sy| |sy my ey];
    intros Hne;
    try solve [repeat match goal with s : bool |- _ => destruct s end;
               first [discriminate Hne | reflexivity]].
  apply nonzero_result_neq_zero, SFsub_finite_nonzero; eauto.
  intros H. rewrite H in Hne. discriminate Hne.
Qed.

Lemma SFcompare_eq_finite (sx sy : bool) (mx my : positive) (ex ey : Z) :
  SFcompare (S754_finite sx mx ex) (S754_finite sy my ey) = Some Eq ->
  sx = sy /\ mx = my /\ ex = ey.
Proof.
  cbn [SFcompare]. intros H. injection H as H.
  destruct sx, sy; try discriminate H;
    destruct (ex ?= ey) eqn:E; try discriminate H;
    apply Z.compare_eq in E; subst;
    change (Pos.compare_cont Eq mx my) with (Pos.compare mx my) in H;
    destruct (mx ?= my)%positive eqn:E'; try discriminate H;
    apply Pos.compare_eq in E'; subst; auto.
Qed.

Lemma finite_cases (x : float) :
  is_finite x = true ->
  (exists s, Prim2SF x = S754_zero s) \/ (exists s m e, Prim2SF x = S754_finite s m e).
Proof.
  unfold is_finite, Prim2SF. intros H.
  apply negb_true_iff, orb_false_iff in H as [Hn Hi]. rewrite Hn, Hi.
  destruct (is_zero x); [left; eauto|].
  destruct (Z.frexp x) as [r ex].
  destruct (shr_fexp _ _ _ _ _) as [shr e'].
  destruct (shr_m shr); [left|right|left]; eauto.
Qed.

(** Two equal finite floats have a difference that is zero. *)
Lemma sub_zero (x y : float) :
  is_finite x = true -> is_finite y = true ->
  (x =? y)%float = true -> (x - y =? 0)%float = true.
Proof.
  intros Fx Fy. rewrite !eqb_spec, sub_spec, Prim2SF_zero.
  destruct (finite_cases x Fx) as [[sx ->]|(sx & mx & ex & ->)],
           (finite_cases y Fy) as [[sy ->]|(sy & my & ey & ->)].
  - intros _. destruct sx, sy; reflexivity.
  - destruct sy; discriminate.
  - destruct sx; discriminate.
  - unfold SFeqb at 1.
    destruct (SFcompare _ _) as [[]|] eqn:E; try discriminate. intros _.
    apply SFcompare_eq_finite in E as (-> & -> & ->).
    unfold SF64sub. cbn [SFsub]. rewrite Z.sub_diag. reflexivity.
Qed.














(** The knob computation of [Binary64.knob_val] is that call. *)
Lemma knob_val_is_scaler_call (raw_val : Z) :
  exists s,
    Binary64.Scaler_init (0, 1024)%float (0, 1)%float = Ok s /\
    Binary64.Scaler_call s (Binary64.of_int raw_val)
    = Ok (Binary64.knob_val raw_val).
Proof. eexists. split; reflexivity. Qed.






(* ------------------------------------------------------------------ *)
(** ** The scaler: formula, values, degenerate range, extrapolation *)

(** C5. A scaler built from the source interval [(srcBeg, srcEnd)] and the
    destination interval [(dstBeg, dstEnd)] with [srcEnd != srcBeg] maps
    every [v] to
    [((v - srcBeg) / (srcEnd - srcBeg)) * (dstEnd - dstBeg) + dstBeg],
    the expression being computed in binary64 as the call computes it:
    two floats that differ have a difference other than zero, so the
    division does not raise. *)
Theorem scaler_formula (sb se db de v : float) :
  (se =? sb)%float = false ->
  exists s,
    Binary64.Scaler_init (sb, se) (db, de) = Ok s /\
    Binary64.Scaler_call s v
    = Ok ((v - sb) / (se - sb) * (de - db) + db)%float.
Proof.
  intros Hne. eexists. split; [reflexivity|].
  unfold Binary64.Scaler_call, Binary64.truediv. simpl.
  rewrite sub_nonzero by exact Hne. reflexivity.
Qed.

Lemma scaler_formula_witness :
  exists s,
    Binary64.Scaler_init (0, 1024)%float (0, 1)%float = Ok s /\
    Binary64.Scaler_call s 512
    = Ok ((512 - 0) / (1024 - 0) * (1 - 0) + 0)%float.
Proof.
  apply (scaler_formula 0 1024 0 1 512). reflexivity.
Defined.

(** C6. The scaler of the reader that [__init__] builds (source 0.0 to
    1024.0, destination 0.0 to 1.0) maps 0 to 0, 1024 to 1, and every raw
    word [w] from 0 to 1024 to [w / 1024], in exact rational arithmetic. *)
Theorem reader_scaler_values (self : RepatcherReader) :
  RepatcherReader_init = Ok self ->
  (exists q, Scaler_call (scaler self) (inject_Z 0) = Ok q /\ (q == 0)%Q) /\
  (exists q, Scaler_call (scaler self) (inject_Z 1024) = Ok q /\ (q == 1)%Q) /\
  (forall w : Z, 0 <= w <= 1024 ->
     exists q, Scaler_call (scaler self) (inject_Z w) = Ok q /\
               (q == inject_Z w / 1024)%Q).
Proof.
  intros Hself.
  split; [|split; [|intros w _]];
    (eexists; split; [apply reader_scaler_call; exact Hself|]).
  - reflexivity.
  - reflexivity.
  - field.
Qed.

Lemma reader_scaler_values_witness :
  exists q, Scaler_call (scaler example_reader) (inject_Z 256) = Ok q /\
            (q == inject_Z 256 / 1024)%Q.
Proof.
  refine (proj2 (proj2 (reader_scaler_values example_reader example_reader_init))
                256 _).
  lia.
Defined.

(** C7, as the code has it.  [Scaler.__init__] checks nothing: the
    construction succeeds whatever the intervals.  With finite
    [srcBeg == srcEnd] the stored width is zero, and it is each later
    call of the scaler that raises [ZeroDivisionError]; no call returns
    a value. *)
Theorem degenerate_scaler_fails_per_call (sb se db de : float) :
  is_finite sb = true ->
  is_finite se = true ->
  (se =? sb)%float = true ->
  exists s,
    Binary64.Scaler_init (sb, se) (db, de) = Ok s /\
    forall v, Binary64.Scaler_call s v = Raise ZeroDivisionError.
Proof.
  intros Fb Fe Heq. eexists. split; [reflexivity|].
  intros v. unfold Binary64.Scaler_call, Binary64.truediv. simpl.
  rewrite sub_zero by assumption. reflexivity.
Qed.

Lemma degenerate_scaler_fails_per_call_witness :
  exists s,
    Binary64.Scaler_init (3, 3)%float (0, 1)%float = Ok s /\
    forall v, Binary64.Scaler_call s v = Raise ZeroDivisionError.
Proof.
  apply (degenerate_scaler_fails_per_call 3 3 0 1); reflexivity.
Defined.

(** C7, as the claim states it, fails: the construction over the source
    range from 0.0 to 0.0 raises nothing and returns a scaler, whose call
    on 512 raises [ZeroDivisionError].  The construction over the source
    range from infinity to infinity succeeds too, and there the call
    raises nothing: it returns a NaN. *)
Lemma degenerate_scaler_is_constructed :
  ~ (exists e, Binary64.Scaler_init (0, 0)%float (0, 1)%float = Raise e) /\
  (exists s,
     Binary64.Scaler_init (0, 0)%float (0, 1)%float = Ok s /\
     Binary64.Scaler_call s 512 = Raise ZeroDivisionError) /\
  (exists s,
     Binary64.Scaler_init (infinity, infinity) (0, 1)%float = Ok s /\
     Binary64.Scaler_call s 512 = Ok nan).
Proof.
  split; [intros [e H]; discriminate H|].
  split; eexists; split; reflexivity.
Qed.




(* ------------------------------------------------------------------ *)
(** ** Determinism and the unused bits of a row byte *)

(** C9. Decoding is a function of the frame bytes alone: two runs on the
    same buffer of 18 bytes, by readers built separately and started in
    any two worlds (whatever the port still holds and whatever the sender
    received before), both return normally after the same six knob calls
    followed by the same six patch-bay calls. *)
Theorem decode_deterministic (self1 self2 : RepatcherReader) (buffer : list Z)
    (w1 w2 : world) :
  RepatcherReader_init = Ok self1 ->
  RepatcherReader_init = Ok self2 ->
  length buffer = 18%nat ->
  exists knobs bays,
    length knobs = 6%nat /\ length bays = 6%nat /\
    _read_knobs self1 buffer w1 = (Ok tt, log w1 knobs) /\
    _read_knobs self2 buffer w2 = (Ok tt, log w2 knobs) /\
    _read_patch_bay self1 buffer (log w1 knobs) = (Ok tt, log w1 (knobs ++ bays)) /\
    _read_patch_bay self2 buffer (log w2 knobs) = (Ok tt, log w2 (knobs ++ bays)) /\
    (_read_knobs self1 buffer ;; _read_patch_bay self1 buffer) w1
    = (Ok tt, log w1 (knobs ++ bays)) /\
    (_read_knobs self2 buffer ;; _read_patch_bay self2 buffer) w2
    = (Ok tt, log w2 (knobs ++ bays)).
Proof.
  intros H1 H2 Hlen.
  exists (map (knob_event buffer) [0; 2; 4; 6; 8; 10]),
         (map (bay_event buffer) [12; 13; 14; 15; 16; 17]).
  repeat split;
    try (now apply read_knobs_run);
    try (now apply decode_run);
    rewrite <- log_log; now apply read_patch_bay_run.
Qed.

Lemma decode_deterministic_witness :
  exists evs,
    (_read_knobs example_reader example_frame ;;
     _read_patch_bay example_reader example_frame) example_world
    = (Ok tt, log example_world evs) /\
    (_read_knobs example_reader example_frame ;;
     _read_patch_bay example_reader example_frame)
      (mkWorld [1; 0xc0; 2] [4%nat] [send_knob 0 1])
    = (Ok tt, log (mkWorld [1; 0xc0; 2] [4%nat] [send_knob 0 1]) evs).
Proof.
  destruct (decode_deterministic example_reader example_reader example_frame
              example_world (mkWorld [1; 0xc0; 2] [4%nat] [send_knob 0 1])
              eq_refl eq_refl eq_refl)
    as (knobs & bays & _ & _ & _ & _ & _ & _ & Ha & Hb).
  exists (knobs ++ bays). split; [exact Ha|exact Hb].
Defined.

Lemma row_flags_low_bits (b : Z) : row_flags (Z.land b 0x3F) = row_flags b.
Proof.
  unfold row_flags. apply map_ext_in. intros mask Hmask.
  rewrite <- Z.land_assoc.
  pick_index Hmask; reflexivity.
Qed.

Lemma row_flags_bits (b : Z) :
  length (row_flags b) = 6%nat /\ Forall (fun c => c = 0 \/ c = 1) (row_flags b).
Proof.
  split; [reflexivity|].
  unfold row_flags. apply Forall_map, Forall_forall. intros mask _.
  destruct (Z.land b mask =? mask); [now right|now left].
Qed.

Lemma nth_other_middle (pre post : list Z) (x y : Z) (n : nat) :
  n <> length pre ->
  nth n (pre ++ x :: post) 0 = nth n (pre ++ y :: post) 0.
Proof.
  intros Hn. destruct (Nat.lt_ge_cases n (length pre)) as [Hlt|Hge].
  - now rewrite !app_nth1.
  - rewrite !app_nth2 by exact Hge.
    destruct (n - length pre)%nat as [|k] eqn:E; [lia|reflexivity].
Qed.

Lemma bay_event_low_bits (pre post : list Z) (b i : Z) :
  0 <= i ->
  bay_event (pre ++ Z.land b 0x3F :: post) i = bay_event (pre ++ b :: post) i.
Proof.
  intros Hi. unfold bay_event. f_equal.
  destruct (Nat.eq_dec (Z.to_nat i) (length pre)) as [E|E].
  - rewrite E, !nth_middle. apply row_flags_low_bits.
  - now rewrite (nth_other_middle pre post (Z.land b 0x3F) b).
Qed.

Lemma nth_error_bays (f : Z -> event) (n : nat) :
  (12 <= n <= 17)%nat ->
  nth_error (map f [12; 13; 14; 15; 16; 17]) (n - 12) = Some (f (Z.of_nat n)).
Proof.
  intros Hn.
  assert (H : In n [12; 13; 14; 15; 16; 17]%nat) by (simpl; lia).
  pick_index H; reflexivity.
Qed.

(** C10. Bits 6 and 7 of a patch-bay row byte play no part: for a row
    byte [b] from 0 to 255 at any of the offsets 12 to 17 of a buffer of
    18 bytes, [_read_patch_bay] does the same with [b & 0x3F] in its
    place, and the connections it sends for that row are exactly six
    entries, each 0 or 1. *)
Theorem row_ignores_high_bits (self : RepatcherReader) (pre post : list Z) (b : Z)
    (w : world) :
  (12 <= length pre)%nat ->
  length (pre ++ b :: post) = 18%nat ->
  0 <= b <= 255 ->
  _read_patch_bay self (pre ++ Z.land b 0x3F :: post) w
  = _read_patch_bay self (pre ++ b :: post) w /\
  exists evs connections,
    _read_patch_bay self (pre ++ b :: post) w = (Ok tt, log w evs) /\
    nth_error evs (length pre - 12)
    = Some (send_patch_bay (5 - (Z.of_nat (length pre) - 12)) connections) /\
    connections
    = map (fun mask => if Z.land (Z.land b 0x3F) mask =? mask then 1 else 0)
          [32; 16; 8; 4; 2; 1] /\
    length connections = 6%nat /\
    Forall (fun c => c = 0 \/ c = 1) connections.
Proof.
  intros Hpre Hlen Hb.
  assert (Hlen' : length (pre ++ Z.land b 0x3F :: post) = 18%nat)
    by (rewrite length_app in *; exact Hlen).
  assert (Hn : (12 <= length pre <= 17)%nat)
    by (rewrite length_app in Hlen; simpl in Hlen; lia).
  split.
  - rewrite !read_patch_bay_run by assumption.
    do 2 f_equal. apply map_ext_in. intros i Hi.
    apply bay_event_low_bits. apply bay_index_bounds in Hi. lia.
  - exists (map (bay_event (pre ++ b :: post)) [12; 13; 14; 15; 16; 17]),
           (row_flags b).
    split; [now apply read_patch_bay_run|].
    split.
    + rewrite nth_error_bays by exact Hn.
      unfold bay_event. now rewrite Nat2Z.id, nth_middle.
    + split; [symmetry; apply row_flags_low_bits|apply row_flags_bits].
Qed.

Lemma row_ignores_high_bits_witness :
  _read_patch_bay example_reader
    ([0; 0; 0; 0; 0; 0; 0; 0; 0; 0; 0; 0; 1; 2] ++ Z.land 255 0x3F :: [4; 5; 6])
    example_world
  = _read_patch_bay example_reader
      ([0; 0; 0; 0; 0; 0; 0; 0; 0; 0; 0; 0; 1; 2] ++ 255 :: [4; 5; 6])
      example_world.
Proof.
  refine (proj1 (row_ignores_high_bits example_reader
                   [0; 0; 0; 0; 0; 0; 0; 0; 0; 0; 0; 0; 1; 2] [4; 5; 6] 255
                   example_world _ eq_refl _)).
  - simpl. lia.
  - lia.
Defined.

(* ------------------------------------------------------------------ *)
(** ** More on the knob words and the row bytes *)

Lemma lor_lt_pow2 (a b n : Z) :
  0 <= n -> 0 <= a < 2 ^ n -> 0 <= b < 2 ^ n -> 0 <= Z.lor a b < 2 ^ n.
Proof.
  intros Hn Ha Hb. split; [apply Z.lor_nonneg; lia|].
  destruct (Z.eq_dec (Z.lor a b) 0) as [->|Hnz]; [lia|].
  assert (Hpos : 0 < n).
  { destruct (Z.eq_dec n 0) as [->|]; [|lia].
    exfalso. apply Hnz. change (2 ^ 0) with 1 in *.
    assert (a = 0) as -> by lia. assert (b = 0) as -> by lia. reflexivity. }
  apply Z.log2_lt_pow2; [assert (0 <= Z.lor a b) by (apply Z.lor_nonneg; lia); lia|].
  rewrite Z.log2_lor by lia.
  apply Z.max_lub_lt.
  - destruct (Z.eq_dec a 0) as [->|]; [simpl; lia|]. apply Z.log2_lt_pow2; lia.
  - destruct (Z.eq_dec b 0) as [->|]; [simpl; lia|]. apply Z.log2_lt_pow2; lia.
Qed.

(** With a low byte of seven bits the two bytes do not overlap. *)
Lemma word_seven_bit (lo hi : Z) :
  0 <= lo < 128 -> Z.lor (Z.shiftl hi 7) lo = 128 * hi + lo.
Proof.
  intros Hlo.
  assert (Hdisj : Z.land (Z.shiftl hi 7) lo = 0).
  { apply Z.bits_inj'. intros n Hn.
    rewrite Z.land_spec, Z.bits_0.
    destruct (Z.lt_ge_cases n 7) as [Hlt|Hge].
    - now rewrite Z.shiftl_spec_low.
    - rewrite <- (Z.mod_small lo (2 ^ 7)) by lia.
      rewrite Z.mod_pow2_bits_high by lia. apply andb_false_r. }
  rewrite <- Z.lxor_lor, <- Z.add_nocarry_lxor by exact Hdisj.
  rewrite Z.shiftl_mul_pow2 by lia. lia.
Qed.

Lemma knob_value_eq (raw : Z) :
  ((inject_Z raw - 0) / (1024 - 0) * (1 - 0) + 0 == inject_Z raw * (1 # 1024))%Q.
Proof. field. Qed.

Lemma in_knob_events (buffer : list Z) (k : Z) (v : Q) :
  In (send_knob k v) (map (knob_event buffer) [0; 2; 4; 6; 8; 10]) ->
  exists i,
    In i [0; 2; 4; 6; 8; 10] /\ k = 5 - i / 2 /\
    v = ((inject_Z (knob_word buffer i) - 0) / (1024 - 0) * (1 - 0) + 0)%Q.
Proof.
  intros H. apply in_map_iff in H as (i & Heq & Hi).
  exists i. unfold knob_event in Heq. injection Heq as <- <-. auto.
Qed.

Lemma byte_at (buffer : list Z) (n : nat) :
  Forall (fun b => 0 <= b < 256) buffer -> (n < length buffer)%nat ->
  0 <= nth n buffer 0 < 256.
Proof.
  intros Hall Hn. rewrite Forall_forall in Hall. apply Hall. now apply nth_In.
Qed.

(** X5. When the low byte of a pair has only seven bits (the top bit
    clear, as the device sends it), the two bytes do not overlap in the
    word and the knob's value is [(128 * high + low) / 1024]. *)
Theorem knob_value_seven_bit (self : RepatcherReader) (buffer : list Z) (w : world) :
  RepatcherReader_init = Ok self ->
  length buffer = 18%nat ->
  exists evs,
    _read_knobs self buffer w = (Ok tt, log w evs) /\
    forall i lo hi,
      In i [0; 2; 4; 6; 8; 10] ->
      Py.getitem buffer i = Ok lo ->
      Py.getitem buffer (i + 1) = Ok hi ->
      0 <= lo < 128 ->
      exists v,
        nth_error evs (Z.to_nat (i / 2)) = Some (send_knob (5 - i / 2) v) /\
        (v == inject_Z (128 * hi + lo) / 1024)%Q.
Proof.
  intros Hself Hlen.
  exists (map (knob_event buffer) [0; 2; 4; 6; 8; 10]).
  split; [now apply read_knobs_run|].
  intros i lo hi Hi Hlo Hhi Hrange.
  destruct (knob_index_bounds i Hi) as [H0 H1].
  rewrite getitem_nth in Hlo, Hhi by lia.
  injection Hlo as Hlo. injection Hhi as Hhi.
  eexists. split.
  - pick_index Hi; reflexivity.
  - unfold knob_word. rewrite Hlo, Hhi, word_seven_bit by exact Hrange. field.
Qed.

Lemma knob_value_seven_bit_witness :
  exists evs,
    _read_knobs example_reader example_frame example_world
    = (Ok tt, log example_world evs) /\
    exists v,
      nth_error evs (Z.to_nat (0 / 2)) = Some (send_knob (5 - 0 / 2) v) /\
      (v == inject_Z (128 * 0 + 0) / 1024)%Q.
Proof.
  destruct (knob_value_seven_bit example_reader example_frame example_world
              eq_refl eq_refl) as (evs & Hrun & Hval).
  exists evs. split; [exact Hrun|].
  apply (Hval 0 0 0); [now left|reflexivity|reflexivity|lia].
Defined.

(** X6. For a buffer of 18 bytes, each from 0 to 255, every knob call has
    a knob number from 0 to 5 and a value from 0 up to, not reaching, 32.
    The value stays below 1, the range the program documents, when the
    high byte of every pair is below 8. *)
Theorem knob_calls_bounded (self : RepatcherReader) (buffer : list Z) (w : world) :
  RepatcherReader_init = Ok self ->
  length buffer = 18%nat ->
  Forall (fun b => 0 <= b < 256) buffer ->
  exists evs,
    _read_knobs self buffer w = (Ok tt, log w evs) /\
    (forall k v, In (send_knob k v) evs ->
       0 <= k <= 5 /\ (0 <= v)%Q /\ (v < 32)%Q) /\
    ((forall i hi, In i [0; 2; 4; 6; 8; 10] ->
        Py.getitem buffer (i + 1) = Ok hi -> hi < 8) ->
     forall k v, In (send_knob k v) evs -> (v < 1)%Q).
Proof.
  intros Hself Hlen Hbytes.
  exists (map (knob_event buffer) [0; 2; 4; 6; 8; 10]).
  split; [now apply read_knobs_run|].
  split.
  - intros k v Hin. apply in_knob_events in Hin as (i & Hi & -> & ->).
    destruct (knob_index_bounds i Hi) as [H0 H1].
    split; [pick_index Hi; simpl; lia|].
    pose proof (byte_at buffer (Z.to_nat i) Hbytes ltac:(lia)) as Hlo.
    pose proof (byte_at buffer (Z.to_nat (i + 1)) Hbytes ltac:(lia)) as Hhi.
    pose proof (word_bound _ _ Hlo Hhi) as [Hw0 Hw1]. fold (knob_word buffer i) in Hw0, Hw1.
    rewrite knob_value_eq.
    rewrite Zle_Qle in Hw0. rewrite Zlt_Qlt in Hw1.
    change (inject_Z 0) with 0%Q in Hw0. change (inject_Z 32768) with 32768%Q in Hw1.
    split; lra.
  - intros Hhigh k v Hin. apply in_knob_events in Hin as (i & Hi & -> & ->).
    destruct (knob_index_bounds i Hi) as [H0 H1].
    pose proof (byte_at buffer (Z.to_nat i) Hbytes ltac:(lia)) as Hlo.
    pose proof (byte_at buffer (Z.to_nat (i + 1)) Hbytes ltac:(lia)) as Hhi.
    pose proof (Hhigh i _ Hi (getitem_nth buffer (i + 1) ltac:(lia))) as Hhi8.
    assert (Hw : 0 <= knob_word buffer i < 2 ^ 10).
    { apply lor_lt_pow2; [lia| |lia].
      rewrite Z.shiftl_mul_pow2 by lia. lia. }
    rewrite knob_value_eq.
    destruct Hw as [_ Hw]. rewrite Zlt_Qlt in Hw. change (inject_Z (2 ^ 10)) with 1024%Q in Hw. lra.
Qed.

Lemma knob_calls_bounded_witness :
  exists evs,
    _read_knobs example_reader example_frame example_world
    = (Ok tt, log example_world evs) /\
    (forall k v, In (send_knob k v) evs ->
       0 <= k <= 5 /\ (0 <= v)%Q /\ (v < 32)%Q).
Proof.
  destruct (knob_calls_bounded example_reader example_frame example_world
              eq_refl eq_refl) as (evs & Hrun & Hb & _).
  - unfold example_frame. repeat constructor; lia.
  - exists evs. split; [exact Hrun|exact Hb].
Defined.

Lemma row_flags_pack (b : Z) :
  fold_left (fun acc flag => 2 * acc + flag) (row_flags b) 0 = Z.land b 0x3F.
Proof.
  rewrite <- row_flags_low_bits.
  assert (Hb : 0 <= Z.land b 0x3F < 0 + Z.of_nat 64).
  { change 0x3F with (Z.ones 6). rewrite Z.land_ones by lia.
    pose proof (Z.mod_pos_bound b (2 ^ 6)). lia. }
  apply in_upto in Hb. revert Hb. generalize (Z.land b 0x3F). intros x Hx.
  assert (Hall : forallb (fun x => fold_left (fun acc flag => 2 * acc + flag)
                                             (row_flags x) 0 =? x)
                         (Binary64.upto 64 0) = true) by (vm_compute; reflexivity).
  rewrite forallb_forall in Hall. apply Z.eqb_eq. now apply Hall.
Qed.

Lemma row_flags_same (b b' : Z) :
  row_flags b = row_flags b' <-> Z.land b 0x3F = Z.land b' 0x3F.
Proof.
  split; intros H.
  - rewrite <- (row_flags_pack b), <- (row_flags_pack b'), H. reflexivity.
  - rewrite <- (row_flags_low_bits b), <- (row_flags_low_bits b'). now rewrite H.
Qed.

Lemma nth_error_bay_events (buffer : list Z) (i : Z) :
  12 <= i <= 17 ->
  nth_error (map (bay_event buffer) [12; 13; 14; 15; 16; 17]) (Z.to_nat (i - 12))
  = Some (bay_event buffer i).
Proof.
  intros Hi. apply bay_index_bounds in Hi. pick_index Hi; reflexivity.
Qed.

(** X7. The connections sent for a row are a faithful picture of the six
    low bits of its byte: for two buffers of 18 bytes, the calls for the
    row at an offset from 12 to 17 are the same exactly when the two row
    bytes have the same six low bits. *)
Theorem row_call_same_iff_low_bits (self : RepatcherReader) (buffer buffer' : list Z)
    (w : world) :
  length buffer = 18%nat ->
  length buffer' = 18%nat ->
  exists evs evs',
    _read_patch_bay self buffer w = (Ok tt, log w evs) /\
    _read_patch_bay self buffer' w = (Ok tt, log w evs') /\
    forall i b b',
      12 <= i <= 17 ->
      Py.getitem buffer i = Ok b ->
      Py.getitem buffer' i = Ok b' ->
      (nth_error evs (Z.to_nat (i - 12)) = nth_error evs' (Z.to_nat (i - 12))
       <-> Z.land b 0x3F = Z.land b' 0x3F).
Proof.
  intros Hlen Hlen'.
  exists (map (bay_event buffer) [12; 13; 14; 15; 16; 17]),
         (map (bay_event buffer') [12; 13; 14; 15; 16; 17]).
  split; [now apply read_patch_bay_run|].
  split; [now apply read_patch_bay_run|].
  intros i b b' Hi Hb Hb'.
  rewrite getitem_nth in Hb, Hb' by lia.
  injection Hb as Hb. injection Hb' as Hb'.
  rewrite !nth_error_bay_events by exact Hi.
  unfold bay_event. rewrite Hb, Hb', <- row_flags_same.
  generalize (row_flags b) (row_flags b'). intros l l'.
  split; [intros [= ->]; reflexivity|intros ->; reflexivity].
Qed.

Lemma row_call_same_iff_low_bits_witness :
  exists evs evs',
    _read_patch_bay example_reader example_frame example_world
    = (Ok tt, log example_world evs) /\
    _read_patch_bay example_reader
      [0; 0; 0; 0; 0; 0; 0; 0; 0; 0; 0; 0; 0; 0; 0; 0; 0; 255] example_world
    = (Ok tt, log example_world evs') /\
    nth_error evs (Z.to_nat (17 - 12)) = nth_error evs' (Z.to_nat (17 - 12)).
Proof.
  destruct (row_call_same_iff_low_bits example_reader example_frame
              [0; 0; 0; 0; 0; 0; 0; 0; 0; 0; 0; 0; 0; 0; 0; 0; 0; 255]
              example_world eq_refl eq_refl) as (evs & evs' & Ha & Hb & Hiff).
  exists evs, evs'. split; [exact Ha|]. split; [exact Hb|].
  apply (Hiff 17 63 255); [lia|reflexivity|reflexivity|reflexivity].
Defined.

Lemma nth_firstn_low (l : list Z) (n k : nat) :
  (k < n)%nat -> nth k (firstn n l) 0 = nth k l 0.
Proof.
  intros Hk. rewrite nth_firstn.
  destruct (k <? n)%nat eqn:E; [reflexivity|apply Nat.ltb_ge in E; lia].
Qed.

(** X8. The two fields of a frame are decoded independently.  Two buffers
    of 18 bytes with the same first 12 bytes give the same knob calls,
    whatever their row bytes; two with the same last 6 bytes give the
    same patch-bay calls, whatever their knob bytes. *)
Theorem fields_independent (self : RepatcherReader) (a b : list Z) (w : world) :
  RepatcherReader_init = Ok self ->
  length a = 18%nat ->
  length b = 18%nat ->
  (firstn 12 a = firstn 12 b ->
   _read_knobs self a w = _read_knobs self b w) /\
  (skipn 12 a = skipn 12 b ->
   _read_patch_bay self a w = _read_patch_bay self b w).
Proof.
  intros Hself Ha Hb. split; intros Heq.
  - rewrite !read_knobs_run by assumption.
    do 2 f_equal. apply map_ext_in. intros i Hi.
    destruct (knob_index_bounds i Hi) as [H0 H1].
    unfold knob_event, knob_word.
    rewrite <- (nth_firstn_low a 12 (Z.to_nat i)) by lia.
    rewrite <- (nth_firstn_low a 12 (Z.to_nat (i + 1))) by lia.
    rewrite Heq, !nth_firstn_low by lia. reflexivity.
  - rewrite !read_patch_bay_run by assumption.
    do 2 f_equal. apply map_ext_in. intros i Hi.
    apply bay_index_bounds in Hi. unfold bay_event.
    replace (Z.to_nat i) with (12 + Z.to_nat (i - 12))%nat by lia.
    now rewrite <- !nth_skipn, Heq.
Qed.

Lemma fields_independent_witness :
  _read_knobs example_reader example_frame example_world
  = _read_knobs example_reader
      [0; 0; 0; 0; 0; 0; 0; 0; 0; 0; 128; 0; 9; 9; 9; 9; 9; 9] example_world.
Proof.
  refine (proj1 (fields_independent example_reader example_frame
                   [0; 0; 0; 0; 0; 0; 0; 0; 0; 0; 128; 0; 9; 9; 9; 9; 9; 9]
                   example_world eq_refl eq_refl eq_refl) eq_refl).
Defined.

(* ------------------------------------------------------------------ *)
(** ** Buffers that are too short *)

Lemma getitem_out (buffer : list Z) (i : Z) :
  Z.of_nat (length buffer) <= i -> Py.getitem buffer i = Raise IndexError.
Proof.
  intros Hi. unfold Py.getitem.
  destruct (i <? 0) eqn:E; [apply Z.ltb_lt in E; lia|].
  rewrite E; simpl.
  destruct (Z.of_nat (length buffer) <=? i) eqn:E'; [reflexivity|].
  apply Z.leb_gt in E'. lia.
Qed.

(** A loop whose body raises at [x], after bodies that only made one
    sender call each. *)
Lemma for_each_raise {A} (f : A -> event) (body : A -> M unit)
    (xs1 : list A) (x : A) (xs2 : list A) (e : exn) :
  (forall y w, In y xs1 -> body y w = (Ok tt, log w [f y])) ->
  (forall w, body x w = (Raise e, w)) ->
  forall w, for_each (xs1 ++ x :: xs2) body w = (Raise e, log w (map f xs1)).
Proof.
  intros Hok Hraise.
  induction xs1 as [|y xs1 IH]; intros w; simpl.
  - unfold bind. now rewrite Hraise, log_nil.
  - erewrite bind_ok by (apply Hok; now left).
    rewrite IH by (intros; apply Hok; now right).
    now rewrite log_log.
Qed.

Lemma read_knobs_short (self : RepatcherReader) (buffer : list Z) (w : world) (k : nat) :
  RepatcherReader_init = Ok self ->
  (k < 6)%nat ->
  (2 * k <= length buffer <= 2 * k + 1)%nat ->
  _read_knobs self buffer w
  = (Raise IndexError, log w (map (knob_event buffer) (firstn k [0; 2; 4; 6; 8; 10]))).
Proof.
  intros Hself Hk Hlen. unfold _read_knobs. rewrite range_knobs.
  replace [0; 2; 4; 6; 8; 10]
    with (firstn k [0; 2; 4; 6; 8; 10]
          ++ 2 * Z.of_nat k :: skipn (S k) [0; 2; 4; 6; 8; 10]) at 1
    by (do 6 (destruct k as [|k]; [reflexivity|]); lia).
  apply for_each_raise.
  - intros i w' Hi.
    assert (Hidx : In i [0; 2; 4; 6; 8; 10] /\ i + 1 < Z.of_nat (length buffer)).
    { do 6 (destruct k as [|k]; [simpl in Hi; pick_index Hi; simpl; lia|]). lia. }
    destruct Hidx as [Hin Hhi].
    destruct (knob_index_bounds i Hin) as [Hlo _].
    erewrite bind_lift_ok by (apply getitem_nth; lia).
    erewrite bind_lift_ok by (apply getitem_nth; lia).
    erewrite bind_lift_ok by (apply reader_scaler_call; exact Hself).
    rewrite sender_call_log, (knob_num_eq _ Hin). reflexivity.
  - intros w'. rewrite getitem_out by lia. reflexivity.
Qed.

(** X9. [_read_knobs] needs 12 bytes.  On a buffer with fewer it raises
    [IndexError], after having sent the knobs whose byte pairs are
    complete: one call for every two bytes of the buffer. *)
Theorem read_knobs_short_buffer (self : RepatcherReader) (buffer : list Z) (w : world) :
  RepatcherReader_init = Ok self ->
  (length buffer < 12)%nat ->
  exists evs,
    _read_knobs self buffer w = (Raise IndexError, log w evs) /\
    length evs = (length buffer / 2)%nat.
Proof.
  intros Hself Hlen.
  pose proof (Nat.div_mod_eq (length buffer) 2) as Hdiv.
  pose proof (Nat.mod_upper_bound (length buffer) 2 ltac:(lia)) as Hmod.
  set (k := (length buffer / 2)%nat) in *.
  assert (Hk : (k < 6)%nat) by lia.
  eexists. split.
  - apply (read_knobs_short self buffer w k); [exact Hself|exact Hk|lia].
  - rewrite length_map, length_firstn. simpl. lia.
Qed.

Lemma read_knobs_short_buffer_witness :
  exists evs,
    _read_knobs example_reader [1; 2; 3] example_world
    = (Raise IndexError, log example_world evs) /\
    length evs = (length [1; 2; 3] / 2)%nat.
Proof.
  apply (read_knobs_short_buffer example_reader [1; 2; 3] example_world eq_refl).
  simpl. lia.
Defined.

Lemma read_patch_bay_short (self : RepatcherReader) (buffer : list Z) (w : world)
    (k : nat) :
  (k < 6)%nat ->
  (length buffer <= 12 + k)%nat ->
  (k = 0%nat \/ length buffer = 12 + k)%nat ->
  _read_patch_bay self buffer w
  = (Raise IndexError,
     log w (map (bay_event buffer) (firstn k [12; 13; 14; 15; 16; 17]))).
Proof.
  intros Hk Hle Hlen. unfold _read_patch_bay. rewrite range_bays.
  replace [12; 13; 14; 15; 16; 17]
    with (firstn k [12; 13; 14; 15; 16; 17]
          ++ 12 + Z.of_nat k :: skipn (S k) [12; 13; 14; 15; 16; 17]) at 1
    by (do 6 (destruct k as [|k]; [reflexivity|]); lia).
  apply for_each_raise.
  - intros i w' Hi.
    assert (Hidx : 0 <= i < Z.of_nat (length buffer)).
    { do 6 (destruct k as [|k]; [simpl in Hi; pick_index Hi; simpl; lia|]). lia. }
    erewrite bind_ok.
    2:{ apply comprehension_pure with
          (g := fun mask => if Z.land (nth (Z.to_nat i) buffer 0) mask =? mask
                            then 1 else 0).
        intros mask _. erewrite bind_lift_ok by (apply getitem_nth; lia).
        reflexivity. }
    rewrite sender_call_log. reflexivity.
  - intros w'. cbn [comprehension]. rewrite getitem_out by lia. reflexivity.
Qed.

(** X10. [_read_patch_bay] needs 18 bytes.  On a buffer with fewer it
    raises [IndexError], after having sent the rows that are there: one
    call for every byte from offset 12 on. *)
Theorem read_patch_bay_short_buffer (self : RepatcherReader) (buffer : list Z)
    (w : world) :
  (length buffer < 18)%nat ->
  exists evs,
    _read_patch_bay self buffer w = (Raise IndexError, log w evs) /\
    length evs = (length buffer - 12)%nat.
Proof.
  intros Hlen.
  set (k := (length buffer - 12)%nat).
  eexists. split.
  - apply (read_patch_bay_short self buffer w k); unfold k; lia.
  - rewrite length_map, length_firstn. simpl. fold k. unfold k. lia.
Qed.

Lemma read_patch_bay_short_buffer_witness :
  exists evs,
    _read_patch_bay example_reader (firstn 14 example_frame) example_world
    = (Raise IndexError, log example_world evs) /\
    length evs = (length (firstn 14 example_frame) - 12)%nat.
Proof.
  apply (read_patch_bay_short_buffer example_reader (firstn 14 example_frame)
           example_world).
  simpl. lia.
Defined.

(* ------------------------------------------------------------------ *)
(** ** More on the read loop *)

Lemma bind_blocked {A B} (c : M A) (k : A -> M B) (w w' : world) :
  c w = (Blocked, w') -> bind c k w = (Blocked, w').
Proof. intros H. unfold bind. now rewrite H. Qed.

(** A pass on the marker with fewer than 18 bytes behind it waits for
    ever for the rest of the frame. *)
Lemma read_body_truncated (self : RepatcherReader) (part : list Z)
    (fl : list nat) (sn : list event) :
  (length part < 18)%nat ->
  read_body self (mkWorld (0xc0 :: part) fl sn) = (Blocked, mkWorld part fl sn).
Proof.
  intros Hlen. unfold read_body.
  erewrite bind_ok by (apply (ser_read_exact 1 [0xc0] part); reflexivity).
  change (bytes_eqb [0xc0] MESSAGE_BUFFER_START) with true. cbv iota.
  apply bind_blocked. unfold ser_read, BUFFER_LEN. simpl ser_in.
  destruct (18 <=? length part)%nat eqn:E; [apply Nat.leb_le in E; lia|].
  reflexivity.
Qed.

Lemma read_body_empty (self : RepatcherReader) (fl : list nat) (sn : list event) :
  read_body self (mkWorld [] fl sn) = (Blocked, mkWorld [] fl sn).
Proof. reflexivity. Qed.

(** What one pass can do: it returns or blocks, it adds no call or the
    twelve calls of one frame, and it only takes bytes off the front of
    the port. *)
Lemma read_body_step (self : RepatcherReader) (w : world) :
  RepatcherReader_init = Ok self ->
  exists o w' evs dropped,
    read_body self w = (o, w') /\
    (o = Ok tt \/ o = Blocked) /\
    sent w' = sent w ++ evs /\
    (length evs = 0 \/ length evs = 12)%nat /\
    ser_in w = dropped ++ ser_in w'.
Proof.
  intros Hself. destruct w as [s fl sn]. destruct s as [|b s].
  - exists Blocked, (mkWorld [] fl sn), [], [].
    rewrite read_body_empty. simpl. rewrite app_nil_r. repeat split; auto.
  - destruct (Z.eq_dec b 0xc0) as [->|Hb].
    + destruct (Nat.lt_ge_cases (length s) 18) as [Hshort|Hlong].
      * exists Blocked, (mkWorld s fl sn), [], [0xc0].
        rewrite read_body_truncated by exact Hshort.
        simpl. rewrite app_nil_r. repeat split; auto.
      * pose proof (firstn_skipn 18 s) as Hs.
        assert (Hf : length (firstn 18 s) = 18%nat) by (rewrite length_firstn; lia).
        set (frame := firstn 18 s) in *. set (rest := skipn 18 s) in *.
        clearbody frame rest. subst s.
        rewrite read_body_marker by exact Hf.
        rewrite decode_run by assumption.
        do 2 eexists. eexists. exists (0xc0 :: frame ++ firstn (hd 0%nat fl) rest).
        split; [reflexivity|]. split; [now left|].
        split; [reflexivity|]. split; [now right|]. simpl.
        now rewrite <- app_assoc, firstn_skipn.
    + exists (Ok tt), (mkWorld s fl sn), [], [b].
      rewrite read_body_stray by exact Hb.
      simpl. rewrite app_nil_r. repeat split; auto.
Qed.

Lemma read_steps (self : RepatcherReader) (n : nat) (w : world) :
  RepatcherReader_init = Ok self ->
  exists o w' evs dropped k,
    read self n w = (o, w') /\
    (o = Ok tt \/ o = Blocked) /\
    sent w' = sent w ++ evs /\
    length evs = (12 * k)%nat /\ (k <= n)%nat /\
    ser_in w = dropped ++ ser_in w'.
Proof.
  intros Hself. revert w. induction n as [|n IH]; intros w.
  - exists (Ok tt), w, [], [], 0%nat. simpl. rewrite app_nil_r. repeat split; auto.
  - destruct (read_body_step self w Hself)
      as (o & w1 & evs & dropped & Hrun & Ho & Hsent & Hlen & Hin).
    cbn [read]. destruct Ho as [-> | ->].
    + rewrite (bind_ok _ _ _ _ _ Hrun).
      destruct (IH w1) as (o' & w2 & evs' & dropped' & k & Hrun' & Ho' & Hsent' & Hlen' & Hk & Hin').
      exists o', w2, (evs ++ evs'), (dropped ++ dropped').
      exists (if Nat.eqb (length evs) 0 then k else S k).
      split; [exact Hrun'|]. split; [exact Ho'|].
      split; [rewrite Hsent', Hsent; now rewrite app_assoc|].
      split; [|split].
      * rewrite length_app. destruct Hlen as [-> | ->]; simpl Nat.eqb; cbv iota; lia.
      * destruct (Nat.eqb (length evs) 0); lia.
      * rewrite Hin, Hin'. now rewrite app_assoc.
    + rewrite (bind_blocked _ _ _ _ Hrun).
      exists Blocked, w1, evs, dropped, (if Nat.eqb (length evs) 0 then 0 else 1)%nat.
      split; [reflexivity|]. split; [now right|]. split; [exact Hsent|].
      split; [destruct Hlen as [-> | ->]; reflexivity|].
      split; [destruct (Nat.eqb (length evs) 0); lia|exact Hin].
Qed.

(** X11. The loop of [read] never raises: whatever the port delivers and
    however many passes are made, the passes end normally or the loop is
    waiting on a read.  No stream of bytes can make the decoding fail. *)
Theorem read_never_raises (self : RepatcherReader) (n : nat) (w : world) :
  RepatcherReader_init = Ok self ->
  fst (read self n w) = Ok tt \/ fst (read self n w) = Blocked.
Proof.
  intros Hself.
  destruct (read_steps self n w Hself) as (o & w' & _ & _ & _ & Hrun & Ho & _).
  rewrite Hrun. exact Ho.
Qed.

Lemma read_never_raises_witness :
  fst (read example_reader 3 (mkWorld [1; 0xc0; 2; 3] [] [])) = Ok tt \/
  fst (read example_reader 3 (mkWorld [1; 0xc0; 2; 3] [] [])) = Blocked.
Proof.
  exact (read_never_raises example_reader 3 (mkWorld [1; 0xc0; 2; 3] [] [])
           example_reader_init).
Defined.

(** X12. The loop sends whole frames only and never goes back in the
    stream: after any number of passes the sender has its earlier calls
    followed by twelve calls for each of at most one frame per pass, and
    what is left in the port is an end part of what was there. *)
Theorem read_sends_whole_frames (self : RepatcherReader) (n : nat) (w : world) :
  RepatcherReader_init = Ok self ->
  exists evs dropped k,
    sent (snd (read self n w)) = sent w ++ evs /\
    length evs = (12 * k)%nat /\ (k <= n)%nat /\
    ser_in w = dropped ++ ser_in (snd (read self n w)).
Proof.
  intros Hself.
  destruct (read_steps self n w Hself)
    as (o & w' & evs & dropped & k & Hrun & _ & Hsent & Hlen & Hk & Hin).
  exists evs, dropped, k. rewrite Hrun. repeat split; auto.
Qed.

Lemma read_sends_whole_frames_witness :
  exists evs dropped k,
    sent (snd (read example_reader 2 (mkWorld (0xc0 :: example_frame) [] [])))
    = [] ++ evs /\
    length evs = (12 * k)%nat /\ (k <= 2)%nat /\
    0xc0 :: example_frame
    = dropped ++ ser_in (snd (read example_reader 2
                                (mkWorld (0xc0 :: example_frame) [] []))).
Proof.
  exact (read_sends_whole_frames example_reader 2
           (mkWorld (0xc0 :: example_frame) [] []) example_reader_init).
Defined.

Lemma read_blocked_on_empty (self : RepatcherReader) (m : nat)
    (fl : list nat) (sn : list event) :
  read self (S m) (mkWorld [] fl sn) = (Blocked, mkWorld [] fl sn).
Proof. reflexivity. Qed.

(** X13. Without a marker nothing is decoded: on a stream in which no
    byte is 0xC0 the loop takes one byte per pass and never calls the
    sender; once the stream is used up it waits on the port for ever. *)
Theorem read_without_marker (self : RepatcherReader) (stream : list Z)
    (flush : list nat) (sent0 : list event) (n : nat) :
  Forall (fun b => b <> 0xc0) stream ->
  ((n <= length stream)%nat ->
   read self n (mkWorld stream flush sent0)
   = (Ok tt, mkWorld (skipn n stream) flush sent0)) /\
  ((length stream < n)%nat ->
   read self n (mkWorld stream flush sent0)
   = (Blocked, mkWorld [] flush sent0)).
Proof.
  intros Hstream.
  assert (Hstray : forall k, (k <= length stream)%nat ->
            read self k (mkWorld stream flush sent0)
            = (Ok tt, mkWorld (skipn k stream) flush sent0)).
  { intros k Hk.
    pose proof (read_stray self stream [] flush sent0 Hstream k Hk) as H.
    now rewrite !app_nil_r in H. }
  split; [apply Hstray|].
  intros Hn.
  replace n with (length stream + S (n - length stream - 1))%nat by lia.
  erewrite read_plus by (apply Hstray; reflexivity).
  rewrite skipn_all. apply read_blocked_on_empty.
Qed.

Lemma read_without_marker_witness :
  read example_reader 5 (mkWorld [1; 2; 3] [] []) = (Blocked, mkWorld [] [] []).
Proof.
  refine (proj2 (read_without_marker example_reader [1; 2; 3] [] [] 5 _) _).
  - repeat constructor; discriminate.
  - simpl. lia.
Defined.

(** X14. A frame that is cut short is never decoded, not even in part:
    when fewer than 18 bytes follow the marker and nothing more arrives,
    the loop waits on the port for ever and the sender receives no
    call. *)
Theorem read_truncated_frame (self : RepatcherReader) (stray part : list Z)
    (flush : list nat) (sent0 : list event) (n : nat) :
  Forall (fun b => b <> 0xc0) stray ->
  (length part < 18)%nat ->
  (length stray < n)%nat ->
  read self n (mkWorld (stray ++ 0xc0 :: part) flush sent0)
  = (Blocked, mkWorld part flush sent0).
Proof.
  intros Hstray Hpart Hn.
  replace n with (length stray + S (n - length stray - 1))%nat by lia.
  erewrite read_plus by (apply read_stray; [exact Hstray|reflexivity]).
  rewrite skipn_all. cbn [read app].
  apply bind_blocked. now apply read_body_truncated.
Qed.

Lemma read_truncated_frame_witness :
  read example_reader 4 (mkWorld ([7] ++ 0xc0 :: [1; 2; 3]) [] [])
  = (Blocked, mkWorld [1; 2; 3] [] []).
Proof.
  apply (read_truncated_frame example_reader [7] [1; 2; 3] [] [] 4).
  - repeat constructor; discriminate.
  - simpl. lia.
  - simpl. lia.
Defined.

Lemma skipn_S_tl {A} (n : nat) (l : list A) : skipn (S n) l = skipn n (tl l).
Proof. destruct l; simpl; [symmetry; apply skipn_nil|reflexivity]. Qed.

(** X15. Frames are decoded in the order they arrive.  When the stream is
    a run of frames, each the marker and 18 bytes, and no flush finds a
    byte to drop, one pass per frame decodes them one after the other:
    the sender receives what decoding the first frame sends, then the
    second, and so on, and the port is left at the byte after the last
    frame. *)
Theorem read_frames_in_order (self : RepatcherReader) (frames : list (list Z))
    (rest : list Z) (flush : list nat) (sent0 : list event) :
  RepatcherReader_init = Ok self ->
  Forall (fun frame => length frame = 18%nat) frames ->
  Forall (fun k => k = 0%nat) flush ->
  read self (length frames)
       (mkWorld (flat_map (fun frame => 0xc0 :: frame) frames ++ rest) flush sent0)
  = for_each frames
      (fun frame => _read_knobs self frame ;; _read_patch_bay self frame)
      (mkWorld rest (skipn (length frames) flush) sent0).
Proof.
  intros Hself Hframes. revert flush sent0.
  induction Hframes as [|frame frames Hlen _ IH]; intros flush sent0 Hflush;
    [reflexivity|].
  assert (Hhd : hd 0%nat flush = 0%nat)
    by (destruct Hflush; [reflexivity|assumption]).
  assert (Htl : Forall (fun k => k = 0%nat) (tl flush))
    by (destruct Hflush; [constructor|assumption]).
  cbn [length read flat_map for_each]. rewrite <- app_assoc, <- app_comm_cons.
  erewrite bind_ok.
  2:{ rewrite read_body_marker by exact Hlen.
      apply decode_run; assumption. }
  erewrite (bind_ok (_read_knobs self frame ;; _read_patch_bay self frame))
    by (apply decode_run; assumption).
  rewrite Hhd, skipn_S_tl. cbn [skipn]. unfold log at 1; simpl.
  rewrite IH by exact Htl. reflexivity.
Qed.

Lemma read_frames_in_order_witness :
  read example_reader 2
       (mkWorld (flat_map (fun frame => 0xc0 :: frame)
                          [example_frame; example_frame] ++ [5]) [] [])
  = for_each [example_frame; example_frame]
      (fun frame => _read_knobs example_reader frame ;;
                    _read_patch_bay example_reader frame)
      (mkWorld [5] [] []).
Proof.
  apply (read_frames_in_order example_reader [example_frame; example_frame]
           [5] [] [] example_reader_init).
  - repeat constructor.
  - constructor.
Defined.

(* ------------------------------------------------------------------ *)
(** ** The OSC sender *)

Module OscFacts.
Import String.

Lemma to_int_proper (z : Z) :
  Z.to_int z <> Decimal.Pos Decimal.Nil /\ Z.to_int z <> Decimal.Neg Decimal.Nil.
Proof.
  destruct z; simpl; split; intros H; try discriminate;
    injection H; apply DecimalPos.Unsigned.to_uint_nonnil.
Qed.

(** [str] gives different texts for different ints. *)
Lemma str_inj (a b : Z) : Osc.str a = Osc.str b -> a = b.
Proof.
  intros H. apply DecimalZ.to_int_inj.
  apply (f_equal DecimalString.NilZero.int_of_string) in H.
  unfold Osc.str in H.
  destruct (to_int_proper a) as [Ha Ha'], (to_int_proper b) as [Hb Hb'].
  rewrite !DecimalString.NilZero.isi in H by assumption.
  now injection H.
Qed.

Lemma append_inj (p s s' : string) : (p ++ s = p ++ s')%string -> s = s'.
Proof.
  induction p as [|c p IH]; simpl; intros H; [exact H|].
  injection H as H. now apply IH.
Qed.

Lemma fold_add_arg (values : list Z) (builder : Osc.OscMessage) :
  fold_left (fun b v => Osc.add_arg b (Osc.arg_int v)) values builder
  = Osc.mkMessage (Osc.address builder)
                  (Osc.args builder ++ map Osc.arg_int values).
Proof.
  revert builder. induction values as [|v values IH]; intros [addr a]; simpl.
  - now rewrite app_nil_r.
  - rewrite IH. simpl. now rewrite <- app_assoc.
Qed.

Lemma send_knob_datagram (s : Osc.OscSender) (k : Z) (v : Q) (o : Osc.outputs) :
  Osc.datagrams (Osc.OscSender_send_knob s k v o)
  = Osc.datagrams o
    ++ [Osc.mkMessage ("/repatcher/knob" ++ Osc.str k)%string [Osc.arg_float v]].
Proof. unfold Osc.OscSender_send_knob. destruct (Osc.verbose s); reflexivity. Qed.

Lemma send_patch_bay_datagram (s : Osc.OscSender) (n : Z) (vs : list Z)
    (o : Osc.outputs) :
  Osc.datagrams (Osc.OscSender_send_patch_bay s n vs o)
  = Osc.datagrams o
    ++ [Osc.mkMessage ("/repatcher/output" ++ Osc.str n)%string
                      (map Osc.arg_int vs)].
Proof.
  unfold Osc.OscSender_send_patch_bay, Osc.build. rewrite fold_add_arg.
  destruct (Osc.verbose s); reflexivity.
Qed.

(** X17. The address of the message an [OscSender] builds for a call
    tells which control the call is for: two calls whose messages have
    the same address are for the same kind of control, knob or output,
    and for the same number. *)
Theorem address_identifies_call (s1 s2 : Osc.OscSender) (e1 e2 : event)
    (o1 o2 : Osc.outputs) (m1 m2 : Osc.OscMessage) :
  Osc.datagrams (Osc.receive s1 e1 o1) = Osc.datagrams o1 ++ [m1] ->
  Osc.datagrams (Osc.receive s2 e2 o2) = Osc.datagrams o2 ++ [m2] ->
  Osc.address m1 = Osc.address m2 ->
  match e1, e2 with
  | send_knob k _, send_knob k' _ => k = k'
  | send_patch_bay n _, send_patch_bay n' _ => n = n'
  | _, _ => False
  end.
Proof.
  intros H1 H2 Haddr.
  destruct e1 as [k v|n vs], e2 as [k' v'|n' vs']; cbn [Osc.receive] in H1, H2;
    rewrite ?send_knob_datagram, ?send_patch_bay_datagram in H1;
    rewrite ?send_knob_datagram, ?send_patch_bay_datagram in H2;
    apply app_inv_head in H1, H2;
    injection H1 as <-; injection H2 as <-; simpl in Haddr.
  - apply str_inj. now apply (append_inj "/repatcher/knob").
  - discriminate Haddr.
  - discriminate Haddr.
  - apply str_inj. now apply (append_inj "/repatcher/output").
Qed.

Lemma address_identifies_call_witness :
  match send_knob 5 (1 # 2), send_knob 5 (3 # 4) with
  | send_knob k _, send_knob k' _ => k = k'
  | send_patch_bay n _, send_patch_bay n' _ => n = n'
  | _, _ => False
  end.
Proof.
  refine (address_identifies_call
            (Osc.mkSender true) (Osc.mkSender false)
            (send_knob 5 (1 # 2)) (send_knob 5 (3 # 4))
            (Osc.mkOutputs [] []) (Osc.mkOutputs [] [])
            (Osc.mkMessage "/repatcher/knob5" [Osc.arg_float (1 # 2)])
            (Osc.mkMessage "/repatcher/knob5" [Osc.arg_float (3 # 4)])
            _ _ _); reflexivity.
Defined.

Lemma knob_event_datagram (buffer : list Z) (i : Z) :
  exists v,
    Osc.datagrams (Osc.receive (Osc.mkSender false) (knob_event buffer i)
                     (Osc.mkOutputs [] []))
    = [Osc.mkMessage ("/repatcher/knob" ++ Osc.str (5 - i / 2))%string
                     [Osc.arg_float v]].
Proof.
  eexists. unfold knob_event. cbn [Osc.receive].
  rewrite send_knob_datagram. reflexivity.
Qed.

Lemma bay_event_datagram (buffer : list Z) (i : Z) :
  Osc.datagrams (Osc.receive (Osc.mkSender false) (bay_event buffer i)
                   (Osc.mkOutputs [] []))
  = [Osc.mkMessage ("/repatcher/output" ++ Osc.str (5 - (i - 12)))%string
                   (map Osc.arg_int (row_flags (nth (Z.to_nat i) buffer 0)))].
Proof.
  unfold bay_event. cbn [Osc.receive].
  rewrite send_patch_bay_datagram. reflexivity.
Qed.

End OscFacts.

Lemma receive_datagram (s : Osc.OscSender) (e : event) (o : Osc.outputs) :
  Osc.datagrams (Osc.receive s e o)
  = Osc.datagrams o
    ++ Osc.datagrams (Osc.receive (Osc.mkSender false) e (Osc.mkOutputs [] [])).
Proof.
  destruct e; cbn [Osc.receive];
    rewrite !OscFacts.send_knob_datagram || rewrite !OscFacts.send_patch_bay_datagram;
    reflexivity.
Qed.

Lemma receive_all_datagrams (s : Osc.OscSender) (evs : list event) (o : Osc.outputs) :
  Osc.datagrams (Osc.receive_all s evs o)
  = Osc.datagrams o
    ++ flat_map (fun e => Osc.datagrams
                            (Osc.receive (Osc.mkSender false) e (Osc.mkOutputs [] [])))
                evs.
Proof.
  revert o. induction evs as [|e evs IH]; intros o; simpl.
  - now rewrite app_nil_r.
  - unfold Osc.receive_all in *. simpl. rewrite IH, receive_datagram.
    now rewrite <- app_assoc.
Qed.

Lemma knob_messages (buffer : list Z) (idx : list Z) (m : Osc.OscMessage) :
  In m (flat_map (fun e => Osc.datagrams
                             (Osc.receive (Osc.mkSender false) e (Osc.mkOutputs [] [])))
                 (map (knob_event buffer) idx)) ->
  exists v, Osc.args m = [Osc.arg_float v].
Proof.
  intros H. apply in_flat_map in H as (e & He & Hm).
  apply in_map_iff in He as (i & <- & _).
  destruct (OscFacts.knob_event_datagram buffer i) as (v & Hv).
  rewrite Hv in Hm. destruct Hm as [<-|[]]. now exists v.
Qed.

Lemma bay_messages (buffer : list Z) (idx : list Z) (m : Osc.OscMessage) :
  In m (flat_map (fun e => Osc.datagrams
                             (Osc.receive (Osc.mkSender false) e (Osc.mkOutputs [] [])))
                 (map (bay_event buffer) idx)) ->
  exists vs,
    Osc.args m = map Osc.arg_int vs /\
    length vs = 6%nat /\ Forall (fun c => c = 0 \/ c = 1) vs.
Proof.
  intros H. apply in_flat_map in H as (e & He & Hm).
  apply in_map_iff in He as (i & <- & _).
  rewrite OscFacts.bay_event_datagram in Hm. destruct Hm as [<-|[]].
  eexists. split; [reflexivity|]. apply row_flags_bits.
Qed.

(** X18. From the wire to the network: decoding a frame of 18 bytes and
    handing the calls to an [OscSender] makes the sender pass twelve
    messages to the UDP client, addressed in this order to
    [/repatcher/knob5] down to [/repatcher/knob0], then
    [/repatcher/output5] down to [/repatcher/output0].  Each knob message
    carries one float; each output message carries six ints, each 0 or
    1. *)
Theorem frame_to_osc (self : RepatcherReader) (sender : Osc.OscSender)
    (frame : list Z) (w : world) (o : Osc.outputs) :
  RepatcherReader_init = Ok self ->
  length frame = 18%nat ->
  exists evs knobs bays,
    (_read_knobs self frame ;; _read_patch_bay self frame) w = (Ok tt, log w evs) /\
    Osc.datagrams (Osc.receive_all sender evs o) = Osc.datagrams o ++ knobs ++ bays /\
    map Osc.address (knobs ++ bays) = Osc.frame_addresses /\
    length knobs = 6%nat /\
    Forall (fun m => exists v, Osc.args m = [Osc.arg_float v]) knobs /\
    Forall (fun m => exists vs,
                Osc.args m = map Osc.arg_int vs /\
                length vs = 6%nat /\ Forall (fun c => c = 0 \/ c = 1) vs) bays.
Proof.
  intros Hself Hlen.
  eexists. do 2 eexists.
  split; [now apply decode_run|].
  split; [rewrite receive_all_datagrams, flat_map_app; reflexivity|].
  split; [reflexivity|].
  split; [reflexivity|].
  split; apply Forall_forall; intros m Hm.
  - now apply (knob_messages frame [0; 2; 4; 6; 8; 10]).
  - now apply (bay_messages frame [12; 13; 14; 15; 16; 17]).
Qed.

Lemma frame_to_osc_witness :
  exists evs knobs bays,
    (_read_knobs example_reader example_frame ;;
     _read_patch_bay example_reader example_frame) example_world
    = (Ok tt, log example_world evs) /\
    Osc.datagrams (Osc.receive_all (Osc.mkSender true) evs (Osc.mkOutputs [] []))
    = [] ++ knobs ++ bays /\
    map Osc.address (knobs ++ bays) = Osc.frame_addresses.
Proof.
  destruct (frame_to_osc example_reader (Osc.mkSender true) example_frame
              example_world (Osc.mkOutputs [] []) eq_refl eq_refl)
    as (evs & knobs & bays & H1 & H2 & H3 & _).
  exists evs, knobs, bays. split; [exact H1|]. split; [exact H2|exact H3].
Defined.

(* ------------------------------------------------------------------ *)
(** ** The knob values carry no rounding error *)

(** X19. For a buffer of 18 bytes, each from 0 to 255, the value sent for
    every knob is exactly what the scaler's expression gives in IEEE
    binary64 on the raw word: the float result is finite and equal, as a
    rational, to the value of the embedding, so no rounding takes
    place. *)
Theorem knob_values_exact_in_binary64 (self : RepatcherReader) (buffer : list Z)
    (w : world) :
  RepatcherReader_init = Ok self ->
  length buffer = 18%nat ->
  Forall (fun b => 0 <= b < 256) buffer ->
  exists evs,
    _read_knobs self buffer w = (Ok tt, log w evs) /\
    forall i, In i [0; 2; 4; 6; 8; 10] ->
      exists lo hi v q,
        Py.getitem buffer i = Ok lo /\
        Py.getitem buffer (i + 1) = Ok hi /\
        nth_error evs (Z.to_nat (i / 2)) = Some (send_knob (5 - i / 2) v) /\
        Binary64.to_Q (Binary64.knob_val (Z.lor (Z.shiftl hi 7) lo)) = Some q /\
        (q == v)%Q.
Proof.
  intros Hself Hlen Hbytes.
  exists (map (knob_event buffer) [0; 2; 4; 6; 8; 10]).
  split; [now apply read_knobs_run|].
  intros i Hi.
  destruct (knob_index_bounds i Hi) as [H0 H1].
  pose proof (byte_at buffer (Z.to_nat i) Hbytes ltac:(lia)) as Hlo.
  pose proof (byte_at buffer (Z.to_nat (i + 1)) Hbytes ltac:(lia)) as Hhi.
  destruct (binary64_knob_val _ _ Hlo Hhi) as (q & Hq & Heq).
  exists (nth (Z.to_nat i) buffer 0), (nth (Z.to_nat (i + 1)) buffer 0).
  eexists. exists q.
  split; [apply getitem_nth; lia|].
  split; [apply getitem_nth; lia|].
  split; [pick_index Hi; reflexivity|].
  split; [exact Hq|exact Heq].
Qed.

Lemma knob_values_exact_in_binary64_witness :
  exists evs,
    _read_knobs example_reader example_frame example_world
    = (Ok tt, log example_world evs) /\
    exists lo hi v q,
      Py.getitem example_frame 10 = Ok lo /\
      Py.getitem example_frame (10 + 1) = Ok hi /\
      nth_error evs (Z.to_nat (10 / 2)) = Some (send_knob (5 - 10 / 2) v) /\
      Binary64.to_Q (Binary64.knob_val (Z.lor (Z.shiftl hi 7) lo)) = Some q /\
      (q == v)%Q.
Proof.
  destruct (knob_values_exact_in_binary64 example_reader example_frame
              example_world eq_refl eq_refl) as (evs & Hrun & Hval).
  - unfold example_frame. repeat constructor; lia.
  - exists evs. split; [exact Hrun|]. apply Hval. simpl. tauto.
Defined.
